(** * replimod: a REST client-side model class and its naming utility

    Shallow embedding of [src/util.js], [src/unnamed/part_001] (the case
    converter) and [src/index.js] (the builder variant, "v1", lines 1-284,
    and the static-configuration variant, "v2", lines 284-478).

    JavaScript strings are sequences of code units.  The embedding works on
    ASCII code units ([Ascii.ascii]); [toUpperCase] and [toLowerCase] are the
    ASCII case mappings, which is what the engine computes on such strings. *)

From Stdlib Require Import Ascii String ZArith Lia.
From stdpp Require Import gmap strings list fin_maps pretty.

Local Open Scope nat_scope.

(** ** The case converter ([camelToKebab] / [camelCaseToHyphen]) *)

Module Util.

(** [String.prototype.toUpperCase] on one ASCII code unit. *)
Definition upper_unit (c : ascii) : ascii :=
  let n := nat_of_ascii c in
  if (97 <=? n) && (n <=? 122) then ascii_of_nat (n - 32) else c.

(** [String.prototype.toLowerCase] on one ASCII code unit. *)
Definition lower_unit (c : ascii) : ascii :=
  let n := nat_of_ascii c in
  if (65 <=? n) && (n <=? 90) then ascii_of_nat (n + 32) else c.

Definition toUpperCase (s : list ascii) : list ascii := map upper_unit s.
Definition toLowerCase (s : list ascii) : list ascii := map lower_unit s.

Fixpoint starts_with (pat s : list ascii) : bool :=
  match pat, s with
  | [], _ => true
  | _ :: _, [] => false
  | p :: pat', c :: s' => Ascii.eqb p c && starts_with pat' s'
  end.

(** [s.replace(pat, rep)] with a string pattern: only the first occurrence
    of [pat] is replaced.  The replacement strings built by the converter
    are a hyphen followed by one code unit, so they hold none of the
    [$]-patterns that [replace] would expand. *)
Fixpoint replace (pat rep s : list ascii) : list ascii :=
  if starts_with pat s then rep ++ drop (length pat) s
  else match s with
       | [] => []
       | c :: s' => c :: replace pat rep s'
       end.

Definition hyphen : ascii := "-"%char.

(** The body of the [for] loop at index [i]:
    [if (input[i].toUpperCase() === input[i] && i > 0)
       input = input.replace(input[i], "-" + input[i].toLowerCase());] *)
Definition loop_body (i : nat) (input : list ascii) : list ascii :=
  match input !! i with
  | Some c =>
      if bool_decide (toUpperCase [c] = [c]) && (0 <? i)
      then replace [c] (hyphen :: toLowerCase [c]) input
      else input
  | None => input
  end.

(** [for (let i = 0; i < input.length; ++i) body]: the bound
    [input.length] is read again at every iteration, while the body may
    lengthen [input]; the loop is therefore run on fuel. *)
Fixpoint loop (fuel i : nat) (input : list ascii) : option (list ascii) :=
  match fuel with
  | 0 => None
  | S fuel' =>
      if i <? length input
      then loop fuel' (S i) (loop_body i input)
      else Some input
  end.

(** [camelToKebab(input)] of [src/util.js]; [None] when the fuel runs out
    before the loop exits. *)
Definition camelToKebab (fuel : nat) (input : string) : option string :=
  match loop fuel 0 (list_ascii_of_string input) with
  | Some s => Some (string_of_list_ascii (toLowerCase s))
  | None => None
  end.

(** [camelCaseToHyphen] of [src/unnamed/part_001] has the same body. *)
Definition camelCaseToHyphen (fuel : nat) (input : string) : option string :=
  match loop fuel 0 (list_ascii_of_string input) with
  | Some s => Some (string_of_list_ascii (toLowerCase s))
  | None => None
  end.

(** The converter as the specification words it: a hyphen is inserted
    before every uppercase letter at an index above 0, the letter is
    lowercased, and the whole result is lowercased. *)
Definition is_upper_letter (c : ascii) : bool :=
  let n := nat_of_ascii c in (65 <=? n) && (n <=? 90).

Fixpoint hyphenate_from (i : nat) (s : list ascii) : list ascii :=
  match s with
  | [] => []
  | c :: s' =>
      if is_upper_letter c && (0 <? i)
      then hyphen :: lower_unit c :: hyphenate_from (S i) s'
      else c :: hyphenate_from (S i) s'
  end.

Definition toHyphenated_spec (input : string) : string :=
  string_of_list_ascii
    (toLowerCase (hyphenate_from 0 (list_ascii_of_string input))).

(** Identifiers on which the converter is well behaved: letters only,
    and a leading capital that does not come back. *)
Definition is_letter (c : ascii) : bool :=
  let n := nat_of_ascii c in
  ((65 <=? n) && (n <=? 90)) || ((97 <=? n) && (n <=? 122)).

Definition plain_identifier (s : list ascii) : Prop :=
  Forall (fun c => is_letter c = true) s ∧
  match s with
  | c :: s' => c ∈ s' → is_upper_letter c = false
  | [] => True
  end.

(** A code unit without case (a digit, a hyphen, an underscore, ...):
    both case mappings leave it alone. *)
Definition caseless (c : ascii) : Prop := upper_unit c = c ∧ lower_unit c = c.

(** The state of the loop once a caseless unit sits at an index that is
    still ahead of [i] and above 0. *)
Definition stuck (i : nat) (input : list ascii) : Prop :=
  ∃ k c, i ≤ k ∧ 0 < k ∧ input !! k = Some c ∧ caseless c.

End Util.

(** ** A small model of the JavaScript store

    Objects live in a heap and are passed by reference, so that two names
    for one object (the builder's [config] and the configuration captured
    by a built class, or [this] and the value a method returns) are told
    apart from two equal copies.  Numbers are integers; accessor
    properties, symbols and user-defined prototype chains are outside the
    fragment. *)

Module JS.

Definition loc := nat.

(** Function values: the methods the module itself defines, and the
    functions supplied by the application (listeners, hooks, globals). *)
Inductive fn :=
| Builtin (name : string)
| User (id : nat).

Local Unset Elimination Schemes.
(** [VRes host name id inner] is a resource handle of the transport
    client: the resource [name] under [host], narrowed to the instance
    [id] when there is one, with the sub-resources [inner] registered.
    In the client it is a callable object. *)
Inductive value :=
| VUndef
| VNull
| VBool (b : bool)
| VNum (n : Z)
| VStr (s : string)
| VRef (l : loc)
| VFun (f : fn)
| VRes (host : value) (name : string) (id : option value) (inner : list value).
Local Set Elimination Schemes.

Inductive object :=
| OObj (props : gmap string value)
| OArr (elems : list value)
| OStrObj (s : string)
| ODate (t : Z).

Inductive verb := GET | POST | PATCH | DELETE.

(** One outgoing call, as the transport client sees it. *)
Record request := Request {
  rq_verb : verb;
  rq_host : value;
  rq_name : string;
  rq_id : option value;
  rq_arg : value
}.

(** The ways a run can throw.  [Thrown] carries a rejection of the
    transport or an exception of the application; [Unmodelled] marks a run
    that has left the fragment of the language covered here. *)
Inductive error :=
| ReferenceError (name : string)
| TypeError (what : string)
| NoResourceError
| NoBaseURLError
| Thrown (v : value)
| Unmodelled (what : string).

(** [heap]: the objects; [net]: the calls issued so far, oldest first;
    [globals]: the properties the host environment added to the global
    object (the built-ins of the language are not listed). *)
Record state := State {
  heap : gmap loc object;
  net : list request;
  globals : gmap string value
}.

Inductive result (A : Type) :=
| Ok (a : A) (st : state)
| Err (e : error) (st : state)
| OutOfFuel.
Arguments Ok {A} a st.
Arguments Err {A} e st.
Arguments OutOfFuel {A}.

Definition M (A : Type) : Type := state → result A.

Definition ret {A} (a : A) : M A := fun st => Ok a st.
Definition throw {A} (e : error) : M A := fun st => Err e st.
Definition bind {A B} (m : M A) (k : A → M B) : M B :=
  fun st =>
    match m st with
    | Ok a st' => k a st'
    | Err e st' => Err e st'
    | OutOfFuel => OutOfFuel
    end.

Declare Scope js_scope.
Delimit Scope js_scope with js.
Notation "'do' x <- m ; k" := (bind m (fun x => k))
  (at level 10, x name, m at level 100, k at level 200) : js_scope.
Notation "m ;; k" := (bind m (fun _ => k))
  (at level 100, k at level 200, right associativity) : js_scope.
Local Open Scope js_scope.

Definition set_heap (f : gmap loc object → gmap loc object) (st : state) : state :=
  {| heap := f (heap st); net := net st; globals := globals st |}.

(** [new ...] and the literals [{}] and [[]]: a fresh location. *)
Definition alloc (o : object) : M loc :=
  fun st =>
    let l := fresh (dom (heap st)) in
    Ok l (set_heap (insert l o) st).

Definition truthy (v : value) : bool :=
  match v with
  | VUndef | VNull => false
  | VBool b => b
  | VNum n => negb (n =? 0)%Z
  | VStr s => negb (String.eqb s EmptyString)
  | VRef _ | VFun _ | VRes _ _ _ _ => true
  end.

Definition instanceof_Object (v : value) : bool :=
  match v with
  | VRef _ | VFun _ | VRes _ _ _ _ => true
  | _ => false
  end.

Definition instanceof_Function (v : value) : bool :=
  match v with
  | VFun _ | VRes _ _ _ _ => true
  | _ => false
  end.

Definition instanceof_String (v : value) (h : gmap loc object) : option string :=
  match v with
  | VRef l => match h !! l with Some (OStrObj s) => Some s | _ => None end
  | _ => None
  end.

Definition own_keys (props : gmap string value) : list string :=
  (map_to_list props).*1.

Definition index_keys (n : nat) : list string := pretty <$> seq 0 n.

Definition index_of_key (key : string) (n : nat) : option nat :=
  fst <$> list_find (fun i => bool_decide (pretty i = key)) (seq 0 n).

Definition nat_value (n : nat) : value := VNum (Z.of_nat n).

(** [s[key]] on a string: its length and its code units. *)
Definition string_member (s : string) (key : string) : value :=
  if bool_decide (key = "length"%string) then nat_value (String.length s)
  else match index_of_key key (String.length s) ≫= fun i => String.get i s with
       | Some c => VStr (String c EmptyString)
       | None => VUndef
       end.

(** [v[key]] on own properties. *)
Definition get_prop (v : value) (key : string) : M value :=
  fun st =>
    match v with
    | VUndef | VNull => Err (TypeError "property of undefined or null") st
    | VRef l =>
        match heap st !! l with
        | Some (OObj props) => Ok (default VUndef (props !! key)) st
        | Some (OArr elems) =>
            if bool_decide (key = "length"%string)
            then Ok (nat_value (length elems)) st
            else Ok (default VUndef
                       (index_of_key key (length elems) ≫= fun i => elems !! i)) st
        | Some (OStrObj s) => Ok (string_member s key) st
        | Some (ODate _) => Ok VUndef st
        | None => Err (Unmodelled "dangling reference") st
        end
    | VStr s => Ok (string_member s key) st
    | _ => Ok VUndef st
    end.

(** [v[key] = x] in strict code. *)
Definition set_prop (v : value) (key : string) (x : value) : M unit :=
  fun st =>
    match v with
    | VUndef | VNull => Err (TypeError "property of undefined or null") st
    | VRef l =>
        match heap st !! l with
        | Some (OObj props) => Ok tt (set_heap (insert l (OObj (<[key:=x]> props))) st)
        | Some _ => Err (Unmodelled "property write on a non-plain object") st
        | None => Err (Unmodelled "dangling reference") st
        end
    | VFun _ | VRes _ _ _ _ => Err (Unmodelled "property write on a function") st
    | _ => Err (TypeError "property write on a primitive") st
    end.

(** [Object.getOwnPropertyNames(v)]. *)
Definition getOwnPropertyNames (v : value) : M (list string) :=
  fun st =>
    match v with
    | VUndef | VNull => Err (TypeError "cannot convert undefined or null to object") st
    | VRef l =>
        match heap st !! l with
        | Some (OObj props) => Ok (own_keys props) st
        | Some (OArr elems) => Ok (index_keys (length elems) ++ ["length"%string]) st
        | Some (OStrObj s) => Ok (index_keys (String.length s) ++ ["length"%string]) st
        | Some (ODate _) => Ok [] st
        | None => Err (Unmodelled "dangling reference") st
        end
    | VStr s => Ok (index_keys (String.length s) ++ ["length"%string]) st
    | VBool _ | VNum _ => Ok [] st
    | VFun _ | VRes _ _ _ _ => Err (Unmodelled "property names of a function") st
    end.

(** The keys visited by [for (let prop in v)]. *)
Definition enumerable_keys (v : value) : M (list string) :=
  fun st =>
    match v with
    | VRef l =>
        match heap st !! l with
        | Some (OObj props) => Ok (own_keys props) st
        | Some (OArr elems) => Ok (index_keys (length elems)) st
        | Some (OStrObj s) => Ok (index_keys (String.length s)) st
        | Some (ODate _) => Ok [] st
        | None => Err (Unmodelled "dangling reference") st
        end
    | VStr s => Ok (index_keys (String.length s)) st
    | _ => Ok [] st
    end.

(** [for (let x of xs) body]. *)
Fixpoint for_each {A} (xs : list A) (body : A → M unit) : M unit :=
  match xs with
  | [] => ret tt
  | x :: xs' => body x ;; for_each xs' body
  end.

(** [xs.map(f)] on the elements, in index order. *)
Fixpoint map_m {A B} (f : A → M B) (xs : list A) : M (list B) :=
  match xs with
  | [] => ret []
  | x :: xs' => do y <- f x; do ys <- map_m f xs'; ret (y :: ys)
  end.

(** ** The transport client (another-rest-client), an external dependency

    Only its interface is modelled: a resource handle is narrowed by
    calling it with an identity, and each verb issues one call, recorded
    in [net], whose outcome the server decides. *)

Inductive reply :=
| Resolve (v : value) (h : gmap loc object)
| Reject (e : value) (h : gmap loc object).

(** What the embedding takes from outside the repository: the server
    behind the transport client, the application's own functions, and
    the built-ins [parseInt] and [Date]. *)
Record host := Host {
  server : request → gmap loc object → reply;
  run_fn : nat → value → list value → state → result value;
  parseInt : value → gmap loc object → option Z;
  parse_date : string → option Z
}.

(** [resource(id)]: narrowing clones the handle with the new identity;
    called without one it returns the handle itself. *)
Definition narrow (r : value) (id : value) : value :=
  match r with
  | VRes host name old inner =>
      match id with
      | VUndef => r
      | _ => VRes host name (Some id) inner
      end
  | _ => r
  end.

Section Transport.
Context (env : host).

(** Calling a value as a function with the given [this]. *)
Definition call (f : value) (this : value) (args : list value) : M value :=
  match f with
  | VRes _ _ _ _ => ret (narrow f (default VUndef (head args)))
  | VFun (User id) => run_fn env id this args
  | VFun (Builtin _) => throw (Unmodelled "call of a module method through a value")
  | _ => throw (TypeError "not a function")
  end.

(** [r.get(arg)], [r.post(arg)], [r.patch(arg)], [r.delete()] followed
    by [await]: the call is recorded, then the promise settles. *)
Definition send (v : verb) (r : value) (arg : value) : M value :=
  match r with
  | VRes host name id _ =>
      fun st =>
        let rq := Request v host name id arg in
        let after h := {| heap := h; net := net st ++ [rq]; globals := globals st |} in
        match server env rq (heap st) with
        | Resolve x h => Ok x (after h)
        | Reject e h => Err (Thrown e) (after h)
        end
  | VUndef | VNull => throw (TypeError "property of undefined or null")
  | _ => throw (TypeError "not a function")
  end.

End Transport.

End JS.

(** ** The static-configuration variant ([src/index.js], lines 284-478) *)

Module V2.
Import JS.
Local Open Scope js_scope.

(** A model class as the methods see it through [this] (statics) or
    [this.constructor] (instances).  [baseURL], [modelName] and [conf] are
    the values the static lookups resolve to; [prototype_props] and
    [static_props] are the other own properties of [klass.prototype] and
    of [klass], which [allMethodsOf] enumerates. *)
Record klass := Klass {
  baseURL : value;
  modelName : value;
  conf : value;
  prototype_props : list (string * value);
  static_props : list (string * value)
}.

Definition useBaseURL (k : klass) (url : value) : klass :=
  {| baseURL := url; modelName := modelName k; conf := conf k;
     prototype_props := prototype_props k; static_props := static_props k |}.

Definition useName (k : klass) (name : value) : klass :=
  {| baseURL := baseURL k; modelName := name; conf := conf k;
     prototype_props := prototype_props k; static_props := static_props k |}.

Definition useConf (k : klass) (c : value) : klass :=
  {| baseURL := baseURL k; modelName := modelName k; conf := c;
     prototype_props := prototype_props k; static_props := static_props k |}.

(** [typeof v === "function"]. *)
Definition typeof_function (v : value) : bool :=
  match v with
  | VFun _ | VRes _ _ _ _ => true
  | _ => false
  end.

(** [allMethodsOf(klass)] of [src/util.js]. *)
Definition allMethodsOf (k : klass) : list string :=
  let objectMethods := (filter (fun p => typeof_function p.2) (prototype_props k)).*1 in
  let staticMethods := (filter (fun p => typeof_function p.2) (static_props k)).*1 in
  objectMethods ++ staticMethods.

(** [names.map((method) => camelToKebab(method))]. *)
Fixpoint kebab_all (fuel : nat) (names : list string) : option (list string) :=
  match names with
  | [] => Some []
  | n :: names' =>
      match Util.camelToKebab fuel n with
      | Some s =>
          match kebab_all fuel names' with
          | Some ss => Some (s :: ss)
          | None => None
          end
      | None => None
      end
  end.

Section Model.
Context (env : host) (fuel : nat).

(** [static get apiClient()]: a new client on [this.baseURL], the
    resource [this.modelName] registered on it with one sub-resource
    per method, and the handle [client[this.modelName]] returned.  The
    client takes a string as a resource name. *)
Definition static_apiClient (k : klass) : M value :=
  match modelName k with
  | VStr name =>
      let methods := filter (fun m => m ≠ "constructor"%string) (allMethodsOf k) in
      match kebab_all fuel methods with
      | Some subs => ret (VRes (baseURL k) name None (VStr <$> subs))
      | None => fun _ => OutOfFuel
      end
  | _ => throw (TypeError "resource name is not a string")
  end.

(** [constructor(id) { this.id = id; }] under [new]. *)
Definition constructor (id : value) : M value :=
  do l <- alloc (OObj {[ "id"%string := id ]});
  ret (VRef l).

(** [static newInstance() { return new this(); }] *)
Definition newInstance : M value := constructor VUndef.

(** [get apiClient()] of an instance. *)
Definition apiClient (k : klass) (this : value) : M value :=
  do client <- static_apiClient k;
  do id <- get_prop this "id";
  if truthy id then
    do id' <- get_prop this "id";
    call env client VUndef [id']
  else ret client.

(** [fillIn(obj)]: the body ends without a [return]. *)
Definition fillIn (this obj : value) : M value :=
  do d <- get_prop this "_data";
  (if instanceof_Object d then ret tt
   else do l <- alloc (OObj ∅); set_prop this "_data" (VRef l));;
  do names <- getOwnPropertyNames obj;
  for_each names (fun prop =>
    do bag <- get_prop this "_data";
    do x <- get_prop obj prop;
    set_prop bag prop x);;
  ret VUndef.

(** [args = args || {}]. *)
Definition default_args (args : value) : M value :=
  if truthy args then ret args
  else do l <- alloc (OObj ∅); ret (VRef l).

(** The elements of an array value, for [forEach] and [map]. *)
Definition array_elems (v : value) : M (list value) :=
  fun st =>
    match v with
    | VRef l =>
        match heap st !! l with
        | Some (OArr elems) => Ok elems st
        | Some _ => Err (TypeError "not a function") st
        | None => Err (Unmodelled "dangling reference") st
        end
    | VUndef | VNull => Err (TypeError "property of undefined or null") st
    | _ => Err (TypeError "not a function") st
    end.

(** [static async list(args)]. *)
Definition list (k : klass) (args : value) : M value :=
  do args' <- default_args args;
  do client <- static_apiClient k;
  do raw <- send env GET client args';
  do elems <- array_elems raw;
  do out <- map_m (fun obj => do i <- newInstance; fillIn i obj) elems;
  do l <- alloc (OArr out);
  ret (VRef l).

(** [static async create(data)]. *)
Definition create (k : klass) (data : value) : M value :=
  do instance <- newInstance;
  do client <- apiClient k instance;
  do raw <- send env POST client data;
  fillIn instance raw.

(** [async retrieve()]. *)
Definition retrieve (k : klass) (this : value) : M value :=
  do client <- apiClient k this;
  do raw <- send env GET client VUndef;
  fillIn this raw.

(** [async update(data)]. *)
Definition update (k : klass) (this : value) (data : value) : M value :=
  do client <- apiClient k this;
  do raw <- send env PATCH client data;
  fillIn this raw.

(** [delete()]. *)
Definition delete (k : klass) (this : value) : M value :=
  do client <- apiClient k this;
  send env DELETE client VUndef.

End Model.

End V2.

(** ** The builder variant ([src/index.js], lines 1-284) *)

Module V1.
Import JS.
Local Open Scope js_scope.

(** A class that derives from [Model].  [k_config] is the constant
    [config] captured by the [get config()] accessor that [build] puts on
    the prototype; [k_static_config] is what the static lookup
    [this.constructor.config] evaluates to; [k_methods] are the methods a
    subclass adds (the hooks among them). *)
Record klass := Klass {
  k_config : value;
  k_static_config : value;
  k_methods : gmap string nat
}.

(** The names bound at module level: the two imports and the four
    classes.  The constructor has the locals [arg] and [api] besides. *)
Definition module_bindings : list string :=
  ["RestClient"; "camelCaseToHyphen"; "NoResourceError"; "NoBaseURLError";
   "Model"; "ModelBuilder"]%string.

Definition constructor_locals : list string := ["arg"; "api"]%string.

(** Reading an identifier that no enclosing scope binds: it resolves on
    the global object or the read throws. *)
Definition read_free (name : string) : M value :=
  fun st =>
    if bool_decide (name ∈ constructor_locals ++ module_bindings)
    then Err (Unmodelled "identifier bound in the module") st
    else match globals st !! name with
         | Some v => Ok v st
         | None => Err (ReferenceError name) st
         end.

(** Assigning to such an identifier in strict code (a module is strict):
    it must already exist on the global object. *)
Definition assign_free (name : string) (v : value) : M unit :=
  fun st =>
    if bool_decide (name ∈ constructor_locals ++ module_bindings)
    then Err (Unmodelled "identifier bound in the module") st
    else match globals st !! name with
         | Some _ =>
             Ok tt {| heap := heap st; net := net st; globals := <[name:=v]> (globals st) |}
         | None => Err (ReferenceError name) st
         end.

Definition model_methods : list string :=
  ["constructor"; "fillIn"; "retrieve"; "update"; "delete"]%string.

Definition object_prototype_methods : list string :=
  ["hasOwnProperty"; "isPrototypeOf"; "propertyIsEnumerable";
   "toLocaleString"; "toString"; "valueOf"]%string.

(** [this[prop]] on an instance: an own property, else a method found
    along the prototype chain, else the [config] accessor. *)
Definition get_member (k : klass) (this : value) (prop : string) : M value :=
  fun st =>
    match this with
    | VRef l =>
        match heap st !! l with
        | Some (OObj props) =>
            match props !! prop with
            | Some v => Ok v st
            | None =>
                match k_methods k !! prop with
                | Some id => Ok (VFun (User id)) st
                | None =>
                    if bool_decide (prop ∈ model_methods ++ object_prototype_methods)
                    then Ok (VFun (Builtin prop)) st
                    else if bool_decide (prop = "config"%string)
                         then Ok (k_config k) st
                         else Ok VUndef st
                end
            end
        | _ => Err (Unmodelled "instance is not a plain object") st
        end
    | _ => Err (Unmodelled "instance is not an object") st
    end.

(** [this[prop] = v] on an instance; [config] has a getter and no
    setter, which strict code refuses to assign. *)
Definition set_member (this : value) (prop : string) (v : value) : M unit :=
  fun st =>
    match this with
    | VRef l =>
        match heap st !! l with
        | Some (OObj props) =>
            if bool_decide (prop = "config"%string) && bool_decide (props !! prop = None)
            then Err (TypeError "property has only a getter") st
            else Ok tt (set_heap (insert l (OObj (<[prop:=v]> props))) st)
        | _ => Err (Unmodelled "instance is not a plain object") st
        end
    | _ => Err (Unmodelled "instance is not an object") st
    end.

(** [xs.push(x)]. *)
Definition push (xs : value) (x : value) : M unit :=
  fun st =>
    match xs with
    | VRef l =>
        match heap st !! l with
        | Some (OArr elems) => Ok tt (set_heap (insert l (OArr (elems ++ [x]))) st)
        | Some _ => Err (TypeError "not a function") st
        | None => Err (Unmodelled "dangling reference") st
        end
    | VUndef | VNull => Err (TypeError "property of undefined or null") st
    | _ => Err (TypeError "not a function") st
    end.

Section Model.
Context (env : host) (fuel : nat).

(** [camelCaseToHyphen(v)] on a value: [input.length] and
    [input.toLowerCase()] need a string. *)
Definition camelCaseToHyphen (v : value) : M string :=
  match v with
  | VStr s =>
      match Util.camelCaseToHyphen fuel s with
      | Some s' => ret s'
      | None => fun _ => OutOfFuel
      end
  | VUndef | VNull => throw (TypeError "property of undefined or null")
  | VRef _ => throw (Unmodelled "conversion of an object")
  | _ => throw (TypeError "not a function")
  end.

(** [resource.res(resources)]: the names to register. *)
Definition inner_names (v : value) : M (list value) :=
  fun st =>
    match v with
    | VStr _ => Ok [v] st
    | VRef l =>
        match heap st !! l with
        | Some (OArr elems) => Ok elems st
        | _ => Err (Unmodelled "resources given as an object") st
        end
    | VUndef | VNull => Err (TypeError "property of undefined or null") st
    | _ => Err (TypeError "property of undefined or null") st
    end.

(** [if (this.beforeFillIn instanceof Function) this.beforeFillIn(obj);]
    and the same for [afterFillIn]. *)
Definition hook (k : klass) (this : value) (name : string) (obj : value) : M unit :=
  do h <- get_member k this name;
  if instanceof_Function h then
    do h' <- get_member k this name;
    call env h' this [obj];; ret tt
  else ret tt.

(** [if (obj[prop] instanceof String) { let date = new Date(obj[prop]);
      if (date.toString() != "Invalid Date") obj[prop] = date; }] *)
Definition coerce_date (obj : value) (prop : string) : M unit :=
  do v <- get_prop obj prop;
  fun st =>
    match instanceof_String v (heap st) with
    | Some s =>
        match parse_date env s with
        | Some t => (do d <- alloc (ODate t); set_prop obj prop (VRef d)) st
        | None => Ok tt st
        end
    | None => Ok tt st
    end.

(** [fillIn(obj)]. *)
Definition fillIn (k : klass) (this obj : value) : M value :=
  hook k this "beforeFillIn" obj;;
  do keys <- enumerable_keys obj;
  for_each keys (fun prop =>
    coerce_date obj prop;;
    do cur <- get_member k this prop;
    if negb (truthy cur) || negb (instanceof_Function cur) then
      do v <- get_prop obj prop;
      set_member this prop v
    else ret tt);;
  do id <- get_member k this "id";
  (if truthy id then
     do r <- get_member k this "$resource";
     do id' <- get_member k this "id";
     do r' <- call env r this [id'];
     set_member this "$resource" r'
   else ret tt);;
  hook k this "afterFillIn" obj;;
  ret this.

(** [constructor(arg)] under [new]. *)
Definition constructor (k : klass) (arg : value) : M value :=
  do l <- alloc (OObj ∅);
  let this := VRef l in
  (* const api = new RestClient(getAPIHost()); *)
  do getAPIHost <- read_free "getAPIHost";
  do api_host <- call env getAPIHost VUndef [];
  (* resourceName = camelCaseToHyphen(this.constructor.config.resource); *)
  do resource <- get_prop (k_static_config k) "resource";
  do hyphenated <- camelCaseToHyphen resource;
  assign_free "resourceName" (VStr hyphenated);;
  (* api.res(resourceName).res(this.constructor.config.innerResources); *)
  do resourceName <- read_free "resourceName";
  do inner <- get_prop (k_static_config k) "innerResources";
  do names <- inner_names inner;
  (* this.$resource = api[resourceName]; *)
  do resourceName' <- read_free "resourceName";
  match resourceName' with
  | VStr name =>
      set_member this "$resource" (VRes api_host name None names);;
      fun st =>
        match parseInt env arg (heap st) with
        | Some n =>
            (set_member this "id" (VNum n);;
             do r <- get_member k this "$resource";
             do id <- get_member k this "id";
             do r' <- call env r this [id];
             set_member this "$resource" r';;
             ret this) st
        | None =>
            if instanceof_Object arg
            then (fillIn k this arg;; ret this) st
            else Ok this st
        end
  | _ => throw (Unmodelled "resource name is not a string")
  end.

(** The elements of an array value, for [forEach]. *)
Definition array_elems (v : value) : M (list value) :=
  fun st =>
    match v with
    | VRef l =>
        match heap st !! l with
        | Some (OArr elems) => Ok elems st
        | Some _ => Err (TypeError "not a function") st
        | None => Err (Unmodelled "dangling reference") st
        end
    | VUndef | VNull => Err (TypeError "property of undefined or null") st
    | _ => Err (TypeError "not a function") st
    end.

(** [static async list(args)]. *)
Definition list (k : klass) (args : value) : M value :=
  do args' <- (if truthy args then ret args
               else do l <- alloc (OObj ∅); ret (VRef l));
  do probe <- constructor k VUndef;
  do r <- get_member k probe "$resource";
  do raw <- send env GET r args';
  do out <- alloc (OArr []);
  do elems <- array_elems raw;
  for_each elems (fun obj =>
    do instance <- constructor k VUndef;
    fillIn k instance obj;;
    push (VRef out) instance);;
  ret (VRef out).

(** [static async create(data)]. *)
Definition create (k : klass) (data : value) : M value :=
  do instance <- constructor k VUndef;
  do r <- get_member k instance "$resource";
  do raw <- send env POST r data;
  fillIn k instance raw.

(** [async retrieve()]. *)
Definition retrieve (k : klass) (this : value) : M value :=
  do r <- get_member k this "$resource";
  do raw <- send env GET r VUndef;
  fillIn k this raw.

(** [async update(data)]. *)
Definition update (k : klass) (this : value) (data : value) : M value :=
  do r <- get_member k this "$resource";
  do raw <- send env PATCH r data;
  fillIn k this raw.

(** [delete()]. *)
Definition delete (k : klass) (this : value) : M value :=
  do r <- get_member k this "$resource";
  send env DELETE r VUndef.

End Model.

(** *** ModelBuilder *)

(** [constructor()] of the builder under [new]. *)
Definition new_builder : M value :=
  do listeners <- alloc (OArr []);
  do inner <- alloc (OArr []);
  do config <- alloc (OObj (<["resource"%string := VNull]>
                           (<["baseURL"%string := VNull]>
                           (<["requestListeners"%string := VRef listeners]>
                           (<["innerResources"%string := VRef inner]> ∅)))));
  do this <- alloc (OObj {[ "config"%string := VRef config ]});
  ret (VRef this).

Definition addOnRequestListener (this listener : value) : M value :=
  do config <- get_prop this "config";
  do listeners <- get_prop config "requestListeners";
  push listeners listener;;
  ret this.

Definition setBaseURL (this baseURL : value) : M value :=
  do config <- get_prop this "config";
  set_prop config "baseURL" baseURL;;
  ret this.

Definition setResource (this resource : value) : M value :=
  do config <- get_prop this "config";
  set_prop config "resource" resource;;
  ret this.

Definition addInnerResource (this resource : value) : M value :=
  do config <- get_prop this "config";
  do inner <- get_prop config "innerResources";
  push inner resource;;
  ret this.

Definition setInnerResources (this resources : value) : M value :=
  do config <- get_prop this "config";
  set_prop config "innerResources" resources;;
  ret this.

(** [build()]: the class returned closes over [const config = this.config]
    and carries only the prototype accessor [get config()]. *)
Definition build (this : value) : M klass :=
  do config <- get_prop this "config";
  do baseURL <- get_prop config "baseURL";
  if negb (truthy baseURL) then throw NoBaseURLError
  else
    do config' <- get_prop this "config";
    do resource <- get_prop config' "resource";
    if negb (truthy resource) then throw NoResourceError
    else
      do config'' <- get_prop this "config";
      ret {| k_config := config''; k_static_config := VUndef; k_methods := ∅ |}.

(** The later mutations a builder offers. *)
Inductive mutation :=
| SetResource (resource : value)
| SetBaseURL (baseURL : value)
| AddInnerResource (resource : value)
| SetInnerResources (resources : value)
| AddOnRequestListener (listener : value).

Definition mutate (this : value) (m : mutation) : M value :=
  match m with
  | SetResource r => setResource this r
  | SetBaseURL u => setBaseURL this u
  | AddInnerResource r => addInnerResource this r
  | SetInnerResources rs => setInnerResources this rs
  | AddOnRequestListener f => addOnRequestListener this f
  end.

(** What a reader of a configuration sees: the two scalar settings and
    the contents of the two lists. *)
Inductive listing :=
| Elems (xs : Datatypes.list value)
| NotAnArray (v : value).

Definition list_of (v : value) (h : gmap loc object) : listing :=
  match v with
  | VRef l => match h !! l with Some (OArr xs) => Elems xs | _ => NotAnArray v end
  | _ => NotAnArray v
  end.

Record config_view := ConfigView {
  cv_resource : value;
  cv_baseURL : value;
  cv_requestListeners : listing;
  cv_innerResources : listing
}.

Definition view_config (config : value) (h : gmap loc object) : option config_view :=
  match config with
  | VRef l =>
      match h !! l with
      | Some (OObj props) =>
          Some {| cv_resource := default VUndef (props !! "resource"%string);
                  cv_baseURL := default VUndef (props !! "baseURL"%string);
                  cv_requestListeners :=
                    list_of (default VUndef (props !! "requestListeners"%string)) h;
                  cv_innerResources :=
                    list_of (default VUndef (props !! "innerResources"%string)) h |}
      | _ => None
      end
  | _ => None
  end.

(** The configuration a built class hands out through [get config()]. *)
Definition observed_config (k : klass) (st : state) : option config_view :=
  view_config (k_config k) (heap st).

(** The configuration the builder itself holds in [this.config]. *)
Definition builder_config (this : value) (st : state) : option config_view :=
  match get_prop this "config" st with
  | Ok config _ => view_config config (heap st)
  | _ => None
  end.

End V1.

(** ** Scenarios: the environments and classes the examples run in *)

Module Scenario.
Import JS.

(** The transport stub of the specification's example: whatever the
    call, the response is a fresh object [{id: 7, name: "x"}]. *)
Definition echo_server (rq : request) (h : gmap loc object) : reply :=
  let l := fresh (dom h) in
  Resolve (VRef l)
    (<[l := OObj (<["id"%string := VNum 7]> (<["name"%string := VStr "x"]> ∅))]> h).

(** A server answering every call with the collection
    [[{id: 1, name: "a"}, {id: 2, name: "b"}]]. *)
Definition collection_server (rq : request) (h : gmap loc object) : reply :=
  let l1 := fresh (dom h) in
  let h1 := <[l1 := OObj (<["id"%string := VNum 1]> (<["name"%string := VStr "a"]> ∅))]> h in
  let l2 := fresh (dom h1) in
  let h2 := <[l2 := OObj (<["id"%string := VNum 2]> (<["name"%string := VStr "b"]> ∅))]> h1 in
  let l3 := fresh (dom h2) in
  Resolve (VRef l3) (<[l3 := OArr [VRef l1; VRef l2]]> h2).

(** No application function is installed. *)
Definition no_functions (id : nat) (this : value) (args : list value) (st : state)
  : result value :=
  Err (Unmodelled "no such function") st.

(** [parseInt] on the arguments the scenarios pass: numbers, and values
    that do not start with a digit. *)
Definition parseInt_number (v : value) (h : gmap loc object) : option Z :=
  match v with
  | VNum n => Some n
  | _ => None
  end.

Definition no_dates (s : string) : option Z := None.

Definition echo_env : host :=
  {| server := echo_server; run_fn := no_functions;
     parseInt := parseInt_number; parse_date := no_dates |}.

Definition collection_env : host :=
  {| server := collection_server; run_fn := no_functions;
     parseInt := parseInt_number; parse_date := no_dates |}.

(** The class [Car] of [src/example.js]: [class Car extends Model] with
    the method [repair] and the static method [repairAll], after
    [Model.useBaseURL("https://myapi.com/api")] and [Car.useName("cars")]. *)
Definition Car : V2.klass :=
  {| V2.baseURL := VStr "https://myapi.com/api";
     V2.modelName := VStr "cars";
     V2.conf := VUndef;
     V2.prototype_props :=
       [("constructor", VFun (Builtin "constructor")); ("repair", VFun (User 0))]%string;
     V2.static_props :=
       [("length", VNum 0); ("name", VStr "Car"); ("prototype", VRef 0);
        ("repairAll", VFun (User 1))]%string |}.

(** The store before anything runs: [Car.prototype] alone, no call
    issued, nothing added to the global object. *)
Definition start : state :=
  {| heap := {[ 0 := OObj ∅ ]}; net := []; globals := ∅ |}.

(** The store after [new Car()]: the instance is object 1 and has no
    identity. *)
Definition car : value := VRef 1.

Definition car_store : state :=
  {| heap := {[ 0 := OObj ∅; 1 := OObj {[ "id"%string := VUndef ]} ]};
     net := []; globals := ∅ |}.

(** The same store with the raw object [{id: 7, name: "x"}] as object 2,
    and what it becomes when [car.fillIn(raw)] has run: the data bag is
    object 3. *)
Definition raw : value := VRef 2.

Definition raw_props : gmap string value :=
  <["id"%string := VNum 7]> (<["name"%string := VStr "x"]> ∅).

Definition raw_store : state :=
  {| heap := {[ 0 := OObj ∅; 1 := OObj {[ "id"%string := VUndef ]};
                2 := OObj raw_props ]};
     net := []; globals := ∅ |}.

Definition hydrated_store : state :=
  {| heap := {[ 0 := OObj ∅;
                1 := OObj (<["_data"%string := VRef 3]> {[ "id"%string := VUndef ]});
                2 := OObj raw_props;
                3 := OObj raw_props ]};
     net := []; globals := ∅ |}.

(** The payload [{name: "x"}] of the specification's [create] example,
    as object 1 of an otherwise fresh store. *)
Definition payload : value := VRef 1.

Definition payload_store : state :=
  {| heap := {[ 0 := OObj ∅; 1 := OObj {[ "name"%string := VStr "x" ]} ]};
     net := []; globals := ∅ |}.

Definition api : value := VStr "https://myapi.com/api".

(** The builder of [src/unnamed/part_000] once
    [new ModelBuilder().setBaseURL("http://mysite.com/my-api")
       .setResource("nice-models")] has run on [start]: the two lists
    are objects 1 and 2, the configuration is object 3 and the builder
    object 4.  [MyNiceModel] is the class that [build()] then returns. *)
Definition builder : value := VRef 4.

Definition builder_store : state :=
  {| heap := {[ 0 := OObj ∅; 1 := OArr []; 2 := OArr [];
                3 := OObj (<["resource"%string := VStr "nice-models"]>
                          (<["baseURL"%string := VStr "http://mysite.com/my-api"]>
                          (<["requestListeners"%string := VRef 1]>
                          (<["innerResources"%string := VRef 2]> ∅))));
                4 := OObj {[ "config"%string := VRef 3 ]} ]};
     net := []; globals := ∅ |}.

(** The same store after a later [setResource("others")]. *)
Definition renamed_store : state :=
  {| heap := {[ 0 := OObj ∅; 1 := OArr []; 2 := OArr [];
                3 := OObj (<["resource"%string := VStr "others"]>
                          (<["baseURL"%string := VStr "http://mysite.com/my-api"]>
                          (<["requestListeners"%string := VRef 1]>
                          (<["innerResources"%string := VRef 2]> ∅))));
                4 := OObj {[ "config"%string := VRef 3 ]} ]};
     net := []; globals := ∅ |}.

Definition MyNiceModel : V1.klass :=
  {| V1.k_config := VRef 3; V1.k_static_config := VUndef; V1.k_methods := ∅ |}.

(** An instance as the constructor of the builder variant would leave
    it had it run to its end without an argument: a collection handle in
    [$resource] and nothing else (object 1); object 2 is the raw object
    [{id: 7, name: "x"}]. *)
Definition v1_instance : value := VRef 1.

Definition v1_store : state :=
  {| heap := {[ 0 := OObj ∅;
                1 := OObj {[ "$resource"%string := VRes api "cars" None [] ]};
                2 := OObj raw_props ]};
     net := []; globals := ∅ |}.

End Scenario.

(** ** What the statements below observe of a run *)

Module Observe.
Import JS.

(** The calls on record when a run ends, whether it returned or threw. *)
Definition issued {A} (r : result A) : option (list request) :=
  match r with
  | Ok _ st' | Err _ st' => Some (net st')
  | OutOfFuel => None
  end.

(** The value a run returned, if it returned. *)
Definition returned {A} (r : result A) : option A :=
  match r with
  | Ok a _ => Some a
  | _ => None
  end.

(** A computation that issues no call, however it ends. *)
Definition quiet {A} (m : M A) : Prop :=
  ∀ st, issued (m st) = Some (net st).

(** A run that ended in an error without having issued any call. *)
Definition refused {A} (r : result A) (st : state) : Prop :=
  ∃ e st', r = Err e st' ∧ net st' = net st.

(** An own property of an object of the store, if it has one. *)
Definition field (v : value) (key : string) (st : state) : option value :=
  match v with
  | VRef l =>
      match heap st !! l with
      | Some (OObj props) => props !! key
      | _ => None
      end
  | _ => None
  end.

(** The content of the data bag [this._data] of a v2 instance. *)
Definition data_bag (this : value) (st : state) : option (gmap string value) :=
  match field this "_data" st with
  | Some (VRef b) =>
      match heap st !! b with
      | Some (OObj props) => Some props
      | _ => None
      end
  | _ => None
  end.

(** The body of the loop of the [fillIn] of the static-configuration
    variant. *)
Definition copy (this obj : value) (prop : string) : M unit :=
  bind (get_prop this "_data") (fun bag =>
  bind (get_prop obj prop) (fun x => set_prop bag prop x)).

(** While that loop runs, [this._data] stays [d] and the raw object
    keeps its property names. *)
Definition steady (this obj d : value) (names : list string) (st : state) : Prop :=
  get_prop this "_data" st = Ok d st ∧
  getOwnPropertyNames obj st = Ok names st.

(** The bag [d] already holds the raw object's value under [prop]. *)
Definition copied (obj d : value) (prop : string) (st : state) : Prop :=
  ∃ x b props, d = VRef b ∧ heap st !! b = Some (OObj props) ∧
               props !! prop = Some x ∧ get_prop obj prop st = Ok x st.

(** The instance does not serve as its own data bag: [this._data] is
    not [this]. *)
Definition bag_apart (this : value) (st : state) : Prop :=
  get_prop this "_data" st ≠ Ok this st.

(** [this] is a builder whose configuration is the plain object [c]. *)
Definition is_builder (this : value) (c : loc) (st : state) : Prop :=
  field this "config" st = Some (VRef c) ∧
  ∃ props, heap st !! c = Some (OObj props).

(** What a mutation leaves to be seen in the configuration: [before] and
    [after] are the views on either side of it, [h] the store after. *)
Definition reflects (m : V1.mutation) (h : gmap loc object)
    (before after : V1.config_view) : Prop :=
  match m with
  | V1.SetResource r => V1.cv_resource after = r
  | V1.SetBaseURL u => V1.cv_baseURL after = u
  | V1.AddInnerResource r =>
      ∃ xs, V1.cv_innerResources before = V1.Elems xs ∧
            V1.cv_innerResources after = V1.Elems (xs ++ [r])
  | V1.SetInnerResources rs => V1.cv_innerResources after = V1.list_of rs h
  | V1.AddOnRequestListener f =>
      ∃ xs, V1.cv_requestListeners before = V1.Elems xs ∧
            V1.cv_requestListeners after = V1.Elems (xs ++ [f])
  end.

(** A configuration in which both required settings are present. *)
Definition usable (cv : V1.config_view) : Prop :=
  truthy (V1.cv_baseURL cv) = true ∧ truthy (V1.cv_resource cv) = true.

End Observe.

(** ** Further cases *)

Module Cases.
Import JS.

(** A class with a method whose name carries a digit:
    [class Truck extends Model { syncV2() { ... } }] after
    [Truck.useName("trucks")]. *)
Definition Truck : V2.klass :=
  {| V2.baseURL := VStr "https://myapi.com/api";
     V2.modelName := VStr "trucks";
     V2.conf := VUndef;
     V2.prototype_props :=
       [("constructor", VFun (Builtin "constructor")); ("syncV2", VFun (User 0))]%string;
     V2.static_props :=
       [("length", VNum 0); ("name", VStr "Truck"); ("prototype", VRef 0)]%string |}.

(** The store after [new Car(5)]: the instance is object 1. *)
Definition car5_store : state :=
  {| heap := {[ 0 := OObj ∅; 1 := OObj {[ "id"%string := VNum 5 ]} ]};
     net := []; globals := ∅ |}.

(** The builder store of the scenario with an array [["wheels"]] of the
    caller's as object 5. *)
Definition parts : value := VRef 5.

Definition parts_store : state :=
  {| heap := <[5 := OArr [VStr "wheels"]]> (heap Scenario.builder_store);
     net := []; globals := ∅ |}.

(** A chain [b.f(x1).f(x2)...] of calls of one builder method, each made
    on what the call before it returned. *)
Fixpoint chain (f : value → value → M value) (this : value) (xs : list value)
    : M value :=
  match xs with
  | [] => ret this
  | x :: xs' => bind (f this x) (fun b => chain f b xs')
  end.

(** The builder [this] holds the settings [resource] and [baseURL], the
    listeners [fs] and the inner resources [rs], the two lists in arrays
    apart from each other. *)
Definition holds (this resource baseURL : value) (fs rs : list value)
    (st : state) : Prop :=
  ∃ c props lst inn,
    Observe.field this "config" st = Some (VRef c) ∧
    heap st !! c = Some (OObj props) ∧
    props !! "resource"%string = Some resource ∧
    props !! "baseURL"%string = Some baseURL ∧
    props !! "requestListeners"%string = Some (VRef lst) ∧
    props !! "innerResources"%string = Some (VRef inn) ∧
    lst ≠ inn ∧
    heap st !! lst = Some (OArr fs) ∧
    heap st !! inn = Some (OArr rs).

(** A run of later mutations, each on what the one before returned. *)
Fixpoint mutate_all (this : value) (ms : list V1.mutation) : M value :=
  match ms with
  | [] => ret this
  | m :: ms' => bind (V1.mutate this m) (fun b => mutate_all b ms')
  end.

End Cases.

(** * Theorems *)

(** ** The case converter *)

Section ConverterFacts.
Import Util.

Lemma starts_with_single d s :
  starts_with [d] s = match s with c :: _ => Ascii.eqb d c | [] => false end.
Proof. destruct s as [|c s]; simpl; [done|]. by rewrite andb_true_r. Qed.

(** Replacing a code unit that occurs in [s] rewrites its first
    occurrence, which lies at or before any index holding that unit. *)
Lemma replace_first_occurrence d rep s i :
  s !! i = Some d →
  ∃ p q, s = p ++ d :: q ∧ (d ∉ p) ∧ length p ≤ i ∧
         replace [d] rep s = p ++ (rep ++ q).
Proof.
  revert i. induction s as [|c s IH]; intros i Hi; [done|].
  destruct (decide (d = c)) as [->|Hne].
  - exists [], s. repeat split; [apply not_elem_of_nil | simpl; lia |].
    simpl. by rewrite Ascii.eqb_refl, drop_0.
  - destruct i as [|i]; [simpl in Hi; congruence|].
    destruct (IH i Hi) as (p & q & -> & Hp & Hlen & Hr).
    exists (c :: p), q. repeat split; [| simpl; lia |].
    { intros [?|?]%elem_of_cons; contradiction. }
    cbn [replace]. rewrite starts_with_single.
    destruct (Ascii.eqb_spec d c) as [|_]; [done|].
    by rewrite Hr.
Qed.

Lemma stuck_in_range i input : stuck i input → i < length input.
Proof.
  intros (k & c & Hik & _ & Hk & _). apply lookup_lt_Some in Hk. lia.
Qed.

(** One iteration keeps the loop stuck: the caseless unit is pushed one
    place to the right by the hyphen written in front of it. *)
Lemma stuck_step i input : stuck i input → stuck (S i) (loop_body i input).
Proof.
  intros (k & c & Hik & Hk0 & Hk & Hup & Hlo). unfold loop_body.
  destruct (input !! i) as [d|] eqn:Hd.
  2:{ apply lookup_ge_None in Hd. apply lookup_lt_Some in Hk. lia. }
  destruct (bool_decide (toUpperCase [d] = [d]) && (0 <? i)) eqn:Hc.
  - destruct (replace_first_occurrence d (hyphen :: toLowerCase [d]) input i Hd)
      as (p & q & -> & _ & Hlen & ->).
    exists (S k), c. repeat split; [lia | lia | | done | done].
    destruct (decide (k = length p)) as [->|Hne].
    + rewrite list_lookup_middle in Hk by done. injection Hk as ->.
      replace (p ++ (hyphen :: toLowerCase [c]) ++ q)
        with ((p ++ [hyphen]) ++ lower_unit c :: q)
        by (by rewrite <- app_assoc).
      rewrite list_lookup_middle by (rewrite length_app; simpl; lia).
      by rewrite Hlo.
    + rewrite lookup_app_r in Hk by lia.
      rewrite lookup_app_r by lia.
      destruct (k - length p) as [|m] eqn:Hm; [lia|].
      replace (S k - length p) with (S (S m)) by lia.
      simpl in *. done.
  - exists k, c. repeat split; [|done..].
    destruct (decide (k = i)) as [->|]; [|lia].
    rewrite Hd in Hk. injection Hk as ->.
    apply andb_false_iff in Hc as [Hc|Hc].
    + apply bool_decide_eq_false in Hc. destruct Hc. simpl. by rewrite Hup.
    + apply Nat.ltb_ge in Hc. lia.
Qed.

Lemma loop_stuck fuel : ∀ i input, stuck i input → loop fuel i input = None.
Proof.
  induction fuel as [|fuel IH]; intros i input Hs; [done|].
  simpl. pose proof (stuck_in_range _ _ Hs) as Hlt.
  apply Nat.ltb_lt in Hlt. rewrite Hlt.
  apply IH, stuck_step, Hs.
Qed.

(** Any input with a caseless code unit at an index above 0 keeps the
    converter in its loop whatever the fuel. *)
Lemma converter_stuck fuel input k c :
  0 < k → list_ascii_of_string input !! k = Some c → caseless c →
  camelToKebab fuel input = None ∧ camelCaseToHyphen fuel input = None.
Proof.
  intros Hk Hc Hcl. unfold camelToKebab, camelCaseToHyphen.
  rewrite loop_stuck; [done|]. exists k, c. repeat split; [lia|done..| |];
    apply Hcl.
Qed.

End ConverterFacts.

(** *** Where the converter follows the rule *)

Section ConverterOnIdentifiers.
Import Util.

Lemma upper_letter_facts c :
  is_upper_letter c = true →
  upper_unit c = c ∧ is_upper_letter (lower_unit c) = false ∧
  upper_unit (lower_unit c) ≠ lower_unit c.
Proof.
  destruct c as [[] [] [] [] [] [] [] []]; vm_compute; intros H;
    try discriminate H; repeat split; congruence.
Qed.

Lemma lower_letter_facts c :
  is_letter c = true → is_upper_letter c = false → upper_unit c ≠ c.
Proof.
  destruct c as [[] [] [] [] [] [] [] []]; vm_compute; intros H1 H2;
    try discriminate H1; try discriminate H2; congruence.
Qed.

Lemma replace_at d rep p q :
  d ∉ p → replace [d] rep (p ++ d :: q) = p ++ rep ++ q.
Proof.
  induction p as [|c p IH]; intros Hd.
  - simpl. by rewrite Ascii.eqb_refl, drop_0.
  - apply not_elem_of_cons in Hd as [Hne Hd].
    cbn [app replace]. rewrite starts_with_single.
    destruct (Ascii.eqb_spec d c) as [|_]; [done|]. by rewrite IH.
Qed.

Lemma hyphenate_from_positive i j s :
  0 < i → 0 < j → hyphenate_from i s = hyphenate_from j s.
Proof.
  revert i j. induction s as [|c s IH]; intros i j Hi Hj; [done|].
  simpl. apply Nat.ltb_lt in Hi as Hi'. apply Nat.ltb_lt in Hj as Hj'.
  rewrite Hi', Hj'. rewrite (IH (S i) (S j)) by lia. done.
Qed.

(** The loop invariant: [front] is the part already turned to its final
    form, [rest] the part of the input still ahead; the index may lag
    behind the end of [front] by units that trigger nothing. *)
Lemma loop_on_identifier fuel : ∀ i front rest,
  i ≤ length front →
  (∀ c, c ∈ front → c ∈ rest → is_upper_letter c = false) →
  (∀ j c, i ≤ j → front !! j = Some c → upper_unit c ≠ c) →
  Forall (fun c => is_letter c = true) rest →
  (front = [] → plain_identifier rest) →
  (length front - i) + 2 * length rest < fuel →
  loop fuel i (front ++ rest) = Some (front ++ hyphenate_from (length front) rest).
Proof.
  induction fuel as [|fuel IH]; intros i front rest Hi Hfresh Hquiet Hlet Hfirst Hfuel;
    [lia|].
  cbn [loop]. destruct (decide (i < length front)) as [Hlt|Hge].
  - (* still inside [front]: nothing triggers *)
    destruct (lookup_lt_is_Some_2 front i Hlt) as [c Hc].
    assert ((i <? length (front ++ rest)) = true) as ->
      by (apply Nat.ltb_lt; rewrite length_app; lia).
    unfold loop_body. rewrite lookup_app_l by done. rewrite Hc.
    rewrite bool_decide_eq_false_2.
    2:{ simpl. intros [= Hu]. by apply (Hquiet i c). }
    simpl. apply IH; [lia|done| |done|done|lia].
    intros j c' Hj. apply Hquiet. lia.
  - assert (i = length front) as -> by lia. clear Hi Hge.
    destruct rest as [|c rest].
    + rewrite app_nil_r, Nat.ltb_irrefl. simpl. by rewrite app_nil_r.
    + assert ((length front <? length (front ++ c :: rest)) = true) as ->
        by (apply Nat.ltb_lt; rewrite length_app; simpl; lia).
      apply Forall_cons in Hlet as [Hc Hlet].
      unfold loop_body. rewrite list_lookup_middle by done.
      destruct (is_upper_letter c && (0 <? length front)) eqn:Hup.
      * (* an uppercase letter past index 0: hyphen and lowercase *)
        apply andb_true_iff in Hup as [Hup Hpos].
        destruct (upper_letter_facts c Hup) as (Hu & Hlo & Hlu).
        rewrite bool_decide_eq_true_2 by (simpl; by rewrite Hu).
        rewrite Hpos. simpl.
        assert (c ∉ front) as Hnot.
        { intros Hin. specialize (Hfresh c Hin (list_elem_of_here _ _)). congruence. }
        rewrite (replace_at c _ front rest Hnot).
        rewrite (app_assoc front [hyphen; lower_unit c] rest).
        rewrite (IH (S (length front)) (front ++ [hyphen; lower_unit c]) rest).
        -- rewrite <- app_assoc. simpl. rewrite Hup, Hpos. simpl.
           by rewrite (hyphenate_from_positive
                         (length (front ++ [hyphen; lower_unit c])) (S (length front)))
             by (rewrite ?length_app; simpl; lia).
        -- rewrite length_app. simpl. lia.
        -- intros x Hx Hxr. apply elem_of_app in Hx as [Hx|Hx].
           ++ apply Hfresh; [done|]. by right.
           ++ apply elem_of_cons in Hx as [->|Hx]; [done|].
              apply elem_of_cons in Hx as [->|Hx]; [done|]. by apply elem_of_nil in Hx.
        -- intros j x Hj Hx.
           assert (j = S (length front)) as ->.
           { apply lookup_lt_Some in Hx. rewrite length_app in Hx. simpl in Hx. lia. }
           replace (front ++ [hyphen; lower_unit c])
             with ((front ++ [hyphen]) ++ [lower_unit c]) in Hx
             by (by rewrite <- app_assoc).
           rewrite list_lookup_middle in Hx by (rewrite length_app; simpl; lia).
           by injection Hx as <-.
        -- done.
        -- intros Hnil. by destruct front.
        -- rewrite length_app. simpl in *. lia.
      * (* index 0, or a lowercase letter: the unit stays *)
        assert ((bool_decide (toUpperCase [c] = [c]) && (0 <? length front)) = false)
          as ->.
        { apply andb_false_iff in Hup as [Hup|Hpos]; [|by rewrite Hpos, andb_false_r].
          rewrite bool_decide_eq_false_2; [done|].
          simpl. intros [= Hu]. by apply (lower_letter_facts c). }
        rewrite (cons_middle c front rest), (app_assoc front [c] rest).
        rewrite (IH (S (length front)) (front ++ [c]) rest).
        -- rewrite <- app_assoc. simpl. rewrite Hup.
           by rewrite (hyphenate_from_positive
                         (length (front ++ [c])) (S (length front)))
             by (rewrite ?length_app; simpl; lia).
        -- rewrite length_app. simpl. lia.
        -- intros x Hx Hxr. apply elem_of_app in Hx as [Hx|Hx].
           ++ apply Hfresh; [done|]. by right.
           ++ apply elem_of_cons in Hx as [->|Hx]; [|by apply elem_of_nil in Hx].
              apply andb_false_iff in Hup as [Hup|Hpos]; [done|].
              apply Nat.ltb_ge in Hpos.
              assert (front = []) as Hnil by (destruct front; [done|simpl in Hpos; lia]).
              destruct (Hfirst Hnil) as [_ Hf]. by apply Hf.
        -- intros j x Hj Hx. apply lookup_lt_Some in Hx.
           rewrite length_app in *. simpl in *. lia.
        -- done.
        -- intros Hnil. by destruct front.
        -- rewrite length_app. simpl in *. lia.
Qed.

(** On an identifier made of letters whose first letter, if a capital,
    does not occur again, the converter returns what the rule of the
    specification gives, within [2 * length + 1] iterations. *)
Lemma converter_on_identifiers input :
  plain_identifier (list_ascii_of_string input) →
  camelToKebab (2 * String.length input + 1) input = Some (toHyphenated_spec input) ∧
  camelCaseToHyphen (2 * String.length input + 1) input = Some (toHyphenated_spec input).
Proof.
  intros Hp.
  assert (loop (2 * String.length input + 1) 0 (list_ascii_of_string input)
          = Some (hyphenate_from 0 (list_ascii_of_string input))) as Hloop.
  { apply (loop_on_identifier _ 0 [] (list_ascii_of_string input)).
    - done.
    - by intros c ?%elem_of_nil.
    - by intros j c _ ?.
    - apply Hp.
    - done.
    - simpl. assert (length (list_ascii_of_string input) = String.length input) as ->; [|lia].
      clear Hp. induction input as [|c input IH]; simpl; congruence. }
  unfold camelToKebab, camelCaseToHyphen, toHyphenated_spec. by rewrite Hloop.
Qed.

End ConverterOnIdentifiers.

(** C8. The converter is not total: on the resource name ["nice-models"],
    which [src/unnamed/part_000] passes to [setResource], the loop never
    exits, so no string is returned whatever the number of iterations
    allowed.  The empty string is mapped to the empty string. *)
Theorem converter_loops_on_nice_models :
  (∀ fuel, Util.camelCaseToHyphen fuel "nice-models" = None) ∧
  (∀ fuel, Util.camelToKebab fuel "nice-models" = None) ∧
  Util.camelToKebab 1 EmptyString = Some EmptyString.
Proof.
  assert (Hs : ∀ fuel, Util.camelToKebab fuel "nice-models" = None
                       ∧ Util.camelCaseToHyphen fuel "nice-models" = None).
  { intros fuel. apply (converter_stuck fuel "nice-models" 4 "-"%char);
      [lia | reflexivity | split; reflexivity]. }
  split; [|split]; [intros fuel; apply Hs | intros fuel; apply Hs | reflexivity].
Qed.

Lemma converter_loops_on_digit :
  ∀ fuel, Util.camelToKebab fuel "item2" = None.
Proof.
  intros fuel. apply (converter_stuck fuel "item2" 4 "2"%char);
    [lia | reflexivity | split; reflexivity].
Qed.

(** The three examples of the specification. *)
Lemma converter_examples :
  Util.camelToKebab 20 "repairAll" = Some "repair-all"%string ∧
  Util.camelToKebab 20 "id" = Some "id"%string ∧
  Util.camelToKebab 20 EmptyString = Some EmptyString.
Proof. repeat split; reflexivity. Qed.

(** C9. On ["DeleteDraft"] the converter departs from the rule of the
    specification: the second [D] is found at index 6, but [replace]
    rewrites the first [D], at index 0, so a hyphen leads the result. *)
Theorem converter_rewrites_first_occurrence :
  Util.camelToKebab 30 "DeleteDraft" = Some "-delete-draft"%string ∧
  Util.toHyphenated_spec "DeleteDraft" = "delete-draft"%string.
Proof. split; reflexivity. Qed.

(** ** The store: reads, writes and calls *)

Section StoreFacts.
Import JS Observe.

Lemma bind_Ok {A B} (m : M A) (k : A → M B) st b st2 :
  bind m k st = Ok b st2 → ∃ a st1, m st = Ok a st1 ∧ k a st1 = Ok b st2.
Proof.
  unfold bind. destruct (m st) as [a st1| |]; [|done..]. eauto.
Qed.

Lemma set_heap_same l o st :
  heap st !! l = Some o → set_heap (insert l o) st = st.
Proof.
  intros H. destruct st as [h n g]. unfold set_heap. simpl in *.
  by rewrite insert_id.
Qed.

Lemma is_ref_dec (v : value) (b : loc) : {v = VRef b} + {v ≠ VRef b}.
Proof.
  destruct v as [| | | | |l| |]; try (right; congruence).
  destruct (decide (l = b)); [left|right]; congruence.
Qed.

(** A read leaves the store as it is. *)
Lemma get_prop_pure v key st x st' :
  get_prop v key st = Ok x st' → st' = st.
Proof.
  unfold get_prop. intros H.
  destruct v; try (injection H as _ <-; done); try done.
  destruct (heap st !! l) as [[| | |]|]; try done;
    try (injection H as _ <-; done).
  case_bool_decide; injection H as _ <-; done.
Qed.

Lemma getOwnPropertyNames_pure v st ns st' :
  getOwnPropertyNames v st = Ok ns st' → st' = st.
Proof.
  unfold getOwnPropertyNames. intros H.
  destruct v; try (injection H as _ <-; done); try done.
  destruct (heap st !! l) as [[| | |]|]; try done; injection H as _ <-; done.
Qed.

(** A read through a reference looks at that object alone. *)
Lemma get_prop_frame v key st x b o :
  v ≠ VRef b →
  get_prop v key st = Ok x st →
  get_prop v key (set_heap (insert b o) st) = Ok x (set_heap (insert b o) st).
Proof.
  intros Hne. unfold get_prop.
  destruct v; try done; try (by intros [= ->]).
  assert (l ≠ b) by congruence.
  simpl. rewrite lookup_insert_ne by done.
  destruct (heap st !! l) as [[| | |]|]; try done; try (by intros [= ->]).
  case_bool_decide; by intros [= ->].
Qed.

Lemma getOwnPropertyNames_frame v st ns b o :
  v ≠ VRef b →
  getOwnPropertyNames v st = Ok ns st →
  getOwnPropertyNames v (set_heap (insert b o) st) = Ok ns (set_heap (insert b o) st).
Proof.
  intros Hne. unfold getOwnPropertyNames.
  destruct v; try done; try (by intros [= ->]).
  assert (l ≠ b) by congruence.
  simpl. rewrite lookup_insert_ne by done.
  destruct (heap st !! l) as [[| | |]|]; try done; by intros [= ->].
Qed.

(** A successful write went to a plain object of the store. *)
Lemma set_prop_Ok v key x st u st' :
  set_prop v key x st = Ok u st' →
  ∃ b props, v = VRef b ∧ heap st !! b = Some (OObj props) ∧
             st' = set_heap (insert b (OObj (<[key:=x]> props))) st.
Proof.
  unfold set_prop. destruct v; try done.
  destruct (heap st !! l) as [[| | |]|] eqn:Hl; try done.
  intros [= <-]. eauto.
Qed.

(** *** Computations that issue no call *)

Lemma quiet_ret {A} (a : A) : quiet (ret a).
Proof. done. Qed.

Lemma quiet_throw {A} e : quiet (@throw A e).
Proof. done. Qed.

Lemma quiet_bind {A B} (m : M A) (k : A → M B) :
  quiet m → (∀ a, quiet (k a)) → quiet (bind m k).
Proof.
  intros Hm Hk st. unfold bind. specialize (Hm st).
  destruct (m st) as [a st1|e st1|]; simpl in *; [|done..].
  rewrite Hk. congruence.
Qed.

Lemma quiet_alloc o : quiet (alloc o).
Proof. done. Qed.

Lemma quiet_get_prop v key : quiet (get_prop v key).
Proof.
  intros st. unfold get_prop.
  destruct v; try done. destruct (heap st !! l) as [[| | |]|]; try done.
  by case_bool_decide.
Qed.

Lemma quiet_set_prop v key x : quiet (set_prop v key x).
Proof.
  intros st. unfold set_prop.
  destruct v; try done. by destruct (heap st !! l) as [[| | |]|].
Qed.

Lemma quiet_getOwnPropertyNames v : quiet (getOwnPropertyNames v).
Proof.
  intros st. unfold getOwnPropertyNames.
  destruct v; try done. by destruct (heap st !! l) as [[| | |]|].
Qed.

Lemma quiet_for_each {A} (xs : list A) body :
  (∀ x, quiet (body x)) → quiet (for_each xs body).
Proof.
  intros Hb. induction xs as [|x xs IH]; simpl; [apply quiet_ret|].
  apply quiet_bind; [apply Hb | intros _; apply IH].
Qed.

Lemma quiet_if {A} (b : bool) (m1 m2 : M A) :
  quiet m1 → quiet m2 → quiet (if b then m1 else m2).
Proof. by destruct b. Qed.

End StoreFacts.

Create HintDb quiet.
#[local] Hint Resolve quiet_ret quiet_throw quiet_alloc quiet_get_prop
  quiet_set_prop quiet_getOwnPropertyNames : quiet.

(** ** Hydration in the static-configuration variant *)

Section HydrationV2.
Import JS Observe.

(** Hydration never touches the network. *)
Lemma fillIn_v2_quiet this obj : quiet (V2.fillIn this obj).
Proof.
  unfold V2.fillIn.
  repeat (first [ solve [auto with quiet] | apply quiet_bind | apply quiet_if
                | apply quiet_for_each | intros ? ]).
Qed.

(** Whatever the instance and the raw object, a call of [fillIn] that
    returns hands back [undefined]. *)
Lemma fillIn_v2_result this obj st :
  match V2.fillIn this obj st with
  | Ok v _ => v = VUndef
  | _ => True
  end.
Proof.
  destruct (V2.fillIn this obj st) as [v st'| |] eqn:H; [|done..].
  unfold V2.fillIn in H.
  repeat (apply bind_Ok in H as (? & ? & _ & H)).
  by injection H as <- _.
Qed.

(** *** Hydrating twice *)

Section Twice.
Context (this obj d : value) (names : list string).
Hypothesis d_apart : d ≠ this.

Lemma copy_again prop st :
  steady this obj d names st → copied obj d prop st →
  copy this obj prop st = Ok tt st.
Proof using Type.
  intros [Hd _] (x & b & props & Hdb & Hb & Hx & Hget).
  unfold copy, bind. rewrite Hd, Hget, Hdb. unfold set_prop. rewrite Hb.
  rewrite (insert_id props prop x) by done.
  by rewrite set_heap_same.
Qed.

Lemma copy_all_again props st :
  steady this obj d names st → (∀ p, p ∈ props → copied obj d p st) →
  for_each props (copy this obj) st = Ok tt st.
Proof using Type.
  intros Hs. induction props as [|p props IH]; intros Hc; [done|].
  simpl. unfold bind at 1. rewrite copy_again; [|done|apply Hc; left].
  apply IH. intros q Hq. apply Hc. by right.
Qed.

(** Own property names of a plain object are the keys it holds. *)
Lemma names_of_bag b props st prop :
  obj = VRef b → heap st !! b = Some (OObj props) →
  getOwnPropertyNames obj st = Ok names st → prop ∈ names →
  ∃ x, props !! prop = Some x.
Proof using Type.
  intros -> Hb. unfold getOwnPropertyNames. rewrite Hb. intros [= <-] Hin.
  unfold own_keys in Hin. apply list_elem_of_fmap in Hin as ([k x] & -> & Hin).
  apply elem_of_map_to_list in Hin. eauto.
Qed.

Lemma copy_step prop st st' :
  steady this obj d names st → prop ∈ names →
  copy this obj prop st = Ok tt st' →
  steady this obj d names st' ∧ copied obj d prop st' ∧
  ∀ q, copied obj d q st → copied obj d q st'.
Proof using d_apart.
  intros [Hd Hn] Hin Hc. unfold copy in Hc.
  apply bind_Ok in Hc as (bag & s1 & Hbag & Hc).
  rewrite Hd in Hbag. injection Hbag as <- <-.
  apply bind_Ok in Hc as (x & s2 & Hx & Hc).
  pose proof (get_prop_pure _ _ _ _ _ Hx) as ->.
  apply set_prop_Ok in Hc as (b & props & Hdb & Hb & ->).
  destruct (is_ref_dec obj b) as [Hobj|Hobj].
  - (* the raw object is the bag itself: the write changes nothing *)
    destruct (names_of_bag b props st prop Hobj Hb Hn Hin) as (y & Hy).
    assert (x = y) as ->.
    { rewrite Hobj in Hx. unfold get_prop in Hx. rewrite Hb, Hy in Hx.
      by injection Hx. }
    rewrite (insert_id props prop y) by done.
    rewrite set_heap_same by done.
    split; [by split|]. split; [|done].
    by exists y, b, props.
  - assert (this ≠ VRef b) by congruence.
    repeat split.
    + by apply get_prop_frame.
    + by apply getOwnPropertyNames_frame.
    + exists x, b, (<[prop:=x]> props). repeat split; [done|..].
      * simpl. by rewrite lookup_insert_eq.
      * by rewrite lookup_insert_eq.
      * by apply get_prop_frame.
    + intros q (y & b' & props' & Hb' & Hl & Hy & Hget).
      assert (b' = b) as -> by congruence.
      rewrite Hb in Hl. injection Hl as <-.
      destruct (decide (q = prop)) as [->|Hq].
      * exists x, b, (<[prop:=x]> props). repeat split; [done|..].
        -- simpl. by rewrite lookup_insert_eq.
        -- by rewrite lookup_insert_eq.
        -- by apply get_prop_frame.
      * exists y, b, (<[prop:=x]> props). repeat split; [done|..].
        -- simpl. by rewrite lookup_insert_eq.
        -- by rewrite lookup_insert_ne.
        -- by apply get_prop_frame.
Qed.

Lemma copy_all props : ∀ st st',
  steady this obj d names st → (∀ p, p ∈ props → p ∈ names) →
  for_each props (copy this obj) st = Ok tt st' →
  steady this obj d names st' ∧
  (∀ q, copied obj d q st → copied obj d q st') ∧
  (∀ p, p ∈ props → copied obj d p st').
Proof using d_apart.
  induction props as [|p props IH]; intros st st' Hs Hsub Hrun.
  - injection Hrun as <-. repeat split; [apply Hs..|done|]. by intros p ?%elem_of_nil.
  - simpl in Hrun. apply bind_Ok in Hrun as ([] & s1 & Hp & Hrun).
    destruct (copy_step p st s1 Hs) as (Hs1 & Hp1 & Hmono1); [apply Hsub; left|done|].
    destruct (IH s1 st' Hs1) as (Hs' & Hmono & Hall);
      [intros q Hq; apply Hsub; by right|done|].
    repeat split; [apply Hs'..|auto|].
    intros q [->|Hq]%elem_of_cons; auto.
Qed.

End Twice.

(** On a store in which the bag already holds every property of the raw
    object, [fillIn] returns with the store as it found it. *)
Lemma fillIn_on_settled this obj d names st :
  instanceof_Object d = true →
  steady this obj d names st →
  (∀ p, p ∈ names → copied obj d p st) →
  V2.fillIn this obj st = Ok VUndef st.
Proof.
  intros Hobj Hs Hall. pose proof Hs as [Hd Hn].
  unfold V2.fillIn. unfold bind at 1. rewrite Hd.
  unfold bind at 1. rewrite Hobj. simpl.
  unfold bind at 1. rewrite Hn.
  unfold bind at 1.
  change (for_each names _) with (for_each names (copy this obj)).
  by rewrite (copy_all_again this obj d names).
Qed.

(** A call of [fillIn] that returns leaves [this._data] on an object
    other than [this] that holds every own property of the raw object. *)
Lemma fillIn_v2_settles this obj st v st1 :
  bag_apart this st →
  V2.fillIn this obj st = Ok v st1 →
  ∃ d names, instanceof_Object d = true ∧ d ≠ this ∧
             steady this obj d names st1 ∧
             ∀ p, p ∈ names → copied obj d p st1.
Proof.
  intros Hapart H. unfold V2.fillIn in H.
  apply bind_Ok in H as (d0 & s & Hd0 & H).
  pose proof (get_prop_pure _ _ _ _ _ Hd0) as ->.
  apply bind_Ok in H as ([] & s0 & Hpre & H).
  apply bind_Ok in H as (names & s0' & Hnames & H).
  pose proof (getOwnPropertyNames_pure _ _ _ _ Hnames) as ->.
  apply bind_Ok in H as ([] & s1 & Hloop & H).
  injection H as _ <-.
  change (for_each names _) with (for_each names (copy this obj)) in Hloop.
  destruct (instanceof_Object d0) eqn:Hobj.
  - injection Hpre as <-.
    assert (d0 ≠ this) as Hne by (intros ->; by apply Hapart).
    destruct (copy_all this obj d0 names Hne names st s1) as (Hs & _ & Hall);
      [done..|].
    by exists d0, names.
  - apply bind_Ok in Hpre as (l & sa & Hl & Hset).
    injection Hl as <- <-.
    apply set_prop_Ok in Hset as (i & props & -> & Hi & ->).
    set (l := fresh (dom (heap st))) in *.
    assert (i ≠ l) as Hil.
    { intros ->. unfold get_prop in Hd0.
      destruct (heap st !! l) eqn:Hst; [|done].
      apply (is_fresh (dom (heap st))). fold l. apply elem_of_dom. eauto. }
    assert (VRef l ≠ VRef i) as Hne by congruence.
    destruct (copy_all (VRef i) obj (VRef l) names Hne names
                (set_heap (insert i (OObj (<["_data"%string := VRef l]> props)))
                   (set_heap (insert l (OObj ∅)) st)) s1) as (Hs & _ & Hall);
      [|done|exact Hloop|].
    + split; [|done].
      unfold get_prop. simpl. rewrite lookup_insert_eq.
      by rewrite lookup_insert_eq.
    + by exists (VRef l), names.
Qed.

Lemma fillIn_v2_again this obj st v st1 :
  bag_apart this st →
  V2.fillIn this obj st = Ok v st1 →
  V2.fillIn this obj st1 = Ok VUndef st1.
Proof.
  intros Hapart H.
  destruct (fillIn_v2_settles this obj st v st1 Hapart H)
    as (d & names & Hobj & _ & Hs & Hall).
  by apply (fillIn_on_settled this obj d names).
Qed.

(** Hydration keeps the instance and its bag apart, and a new instance
    starts that way. *)
Lemma fillIn_v2_keeps_apart this obj st v st1 :
  bag_apart this st → V2.fillIn this obj st = Ok v st1 → bag_apart this st1.
Proof.
  intros Hapart H.
  destruct (fillIn_v2_settles this obj st v st1 Hapart H)
    as (d & names & _ & Hne & [Hd _] & _).
  unfold bag_apart. rewrite Hd. congruence.
Qed.

Lemma constructor_v2_apart id st i st' :
  V2.constructor id st = Ok i st' → bag_apart i st'.
Proof.
  unfold V2.constructor, bind, alloc. intros [= <- <-].
  unfold bag_apart, get_prop. simpl. by rewrite lookup_insert_eq.
Qed.

End HydrationV2.



(** ** The operations of the static-configuration variant *)

Section CrudV2.
Import JS Observe.

Lemma static_apiClient_pure fuel k st v st' :
  V2.static_apiClient fuel k st = Ok v st' → st' = st.
Proof.
  unfold V2.static_apiClient.
  destruct (V2.modelName k); try done.
  destruct (V2.kebab_all _ _); [|done]. by intros [= _ <-].
Qed.

(** Without an identity the instance getter hands out the collection
    handle of the class. *)
Lemma apiClient_without_identity env fuel k this st client id :
  V2.static_apiClient fuel k st = Ok client st →
  get_prop this "id" st = Ok id st → truthy id = false →
  V2.apiClient env fuel k this st = Ok client st.
Proof.
  intros Hc Hid Hf. unfold V2.apiClient, bind. by rewrite Hc, Hid, Hf.
Qed.

(** A verb on a handle records one call; hydrating the answer adds
    none. *)
Lemma send_then_fillIn env v host name id inner arg this st :
  issued (bind (send env v (VRes host name id inner) arg)
               (fun raw => V2.fillIn this raw) st)
  = Some (net st ++ [Request v host name id arg]).
Proof.
  unfold bind, send.
  destruct (server env _ (heap st)) as [x h|e h]; [|done].
  by rewrite fillIn_v2_quiet.
Qed.

Lemma send_issued env v host name id inner arg st :
  issued (send env v (VRes host name id inner) arg st)
  = Some (net st ++ [Request v host name id arg]).
Proof. unfold send. by destruct (server env _ (heap st)). Qed.

(** Every element that [list] maps is replaced by what [fillIn]
    returns. *)
Lemma list_v2_elements elems : ∀ st out st',
  map_m (fun obj => bind V2.newInstance (fun i => V2.fillIn i obj)) elems st
    = Ok out st' →
  out = replicate (length elems) VUndef.
Proof.
  induction elems as [|x elems IH]; intros st out st' H; simpl in H.
  - by injection H as <- _.
  - apply bind_Ok in H as (y & s1 & Hy & H).
    apply bind_Ok in H as (ys & s2 & Hys & H).
    injection H as <- _.
    apply bind_Ok in Hy as (i & s0 & _ & Hy).
    pose proof (fillIn_v2_result i x s0) as Hr. rewrite Hy in Hr.
    simpl. f_equal; [done|]. by eapply IH.
Qed.

End CrudV2.




(** C2. In the static-configuration variant [fillIn] returns [undefined],
    not the instance: on the instance [car] and the raw object
    [{id: 7, name: "x"}] it fills the data bag and hands back [undefined],
    and so [create({name: "x"})] resolves to [undefined] as well. *)
Theorem fillIn_v2_returns_undefined :
  V2.fillIn Scenario.car Scenario.raw Scenario.raw_store
    = JS.Ok JS.VUndef Scenario.hydrated_store ∧
  Observe.returned
    (V2.create Scenario.echo_env 20 Scenario.Car Scenario.payload Scenario.payload_store)
    = Some JS.VUndef.
Proof. split; vm_compute; reflexivity. Qed.

(** C3. [create({name: "x"})] against the stub that answers
    [{id: 7, name: "x"}] resolves to [undefined].  The instance it built
    (object 2) still has no identity, the [7] sits in its data bag, and a
    later [retrieve()] or [update(data)] on it goes to the collection
    [cars], not to [cars/7]. *)
Theorem create_v2_leaves_instance_unbound :
  ∃ st,
    V2.create Scenario.echo_env 20 Scenario.Car Scenario.payload Scenario.payload_store
      = JS.Ok JS.VUndef st ∧
    Observe.field (JS.VRef 2) "id" st = Some JS.VUndef ∧
    Observe.data_bag (JS.VRef 2) st = Some Scenario.raw_props ∧
    Observe.issued (V2.retrieve Scenario.echo_env 20 Scenario.Car (JS.VRef 2) st)
      = Some [JS.Request JS.POST Scenario.api "cars" None Scenario.payload;
              JS.Request JS.GET Scenario.api "cars" None JS.VUndef] ∧
    Observe.issued
      (V2.update Scenario.echo_env 20 Scenario.Car (JS.VRef 2) Scenario.payload st)
      = Some [JS.Request JS.POST Scenario.api "cars" None Scenario.payload;
              JS.Request JS.PATCH Scenario.api "cars" None Scenario.payload].
Proof.
  eexists. split; [vm_compute; reflexivity|].
  repeat split; vm_compute; reflexivity.
Qed.

(** C6. For the response [[{id: 1, name: "a"}, {id: 2, name: "b"}]],
    [list()] resolves to an array of two elements, both [undefined]. *)
Theorem list_v2_yields_undefined_elements :
  ∃ a st,
    V2.list Scenario.collection_env 20 Scenario.Car JS.VUndef Scenario.start
      = JS.Ok (JS.VRef a) st ∧
    JS.heap st !! a = Some (JS.OArr [JS.VUndef; JS.VUndef]).
Proof.
  eexists _, _. split; vm_compute; reflexivity.
Qed.

(** ** The builder variant: construction *)

Section ConstructionV1.
Import JS Observe.

(** [getAPIHost] and [resourceName] are bound neither by the constructor
    nor at module level. *)
Lemma free_identifiers :
  ("getAPIHost"%string ∉ V1.constructor_locals ++ V1.module_bindings) ∧
  ("resourceName"%string ∉ V1.constructor_locals ++ V1.module_bindings).
Proof. split; apply (bool_decide_eq_false_1 _); reflexivity. Qed.

Lemma read_getAPIHost st :
  globals st !! "getAPIHost"%string = None →
  V1.read_free "getAPIHost" st = Err (ReferenceError "getAPIHost") st.
Proof.
  intros H. unfold V1.read_free.
  destruct free_identifiers as [Hf _].
  rewrite bool_decide_eq_false_2 by done. by rewrite H.
Qed.

(** In strict code the assignment to [resourceName] throws as well when
    the global object has no such property. *)
Lemma assign_resourceName v st :
  globals st !! "resourceName"%string = None →
  V1.assign_free "resourceName" v st = Err (ReferenceError "resourceName") st.
Proof.
  intros H. unfold V1.assign_free.
  destruct free_identifiers as [_ Hf].
  rewrite bool_decide_eq_false_2 by done. by rewrite H.
Qed.

Lemma constructor_v1_throws env fuel k arg st :
  globals st !! "getAPIHost"%string = None →
  V1.constructor env fuel k arg st
  = Err (ReferenceError "getAPIHost")
        (set_heap (insert (fresh (dom (heap st))) (OObj ∅)) st).
Proof.
  intros H. unfold V1.constructor. unfold bind at 1. unfold alloc.
  unfold bind at 1. by rewrite read_getAPIHost.
Qed.

(** Even where the host environment defines a global [getAPIHost], a
    class returned by [build()] cannot be instantiated: it has no static
    [config], so [this.constructor.config.resource] throws. *)
Lemma built_class_never_constructs env fuel k arg st :
  V1.k_static_config k = VUndef →
  returned (V1.constructor env fuel k arg st) = None.
Proof.
  intros Hk. unfold V1.constructor. unfold bind at 1. unfold alloc.
  unfold bind at 1.
  destruct (V1.read_free _ _) as [f s1| |]; [|done..].
  unfold bind at 1.
  destruct (call env f VUndef [] s1) as [h s2| |]; [|done..].
  unfold bind at 1. by rewrite Hk.
Qed.

(** Hydration in the builder variant ends with [return this]. *)
Lemma fillIn_v1_returns_this env k this obj st v st' :
  V1.fillIn env k this obj st = Ok v st' → v = this.
Proof.
  unfold V1.fillIn. intros H.
  repeat (apply bind_Ok in H as (? & ? & _ & H)).
  by injection H as <- _.
Qed.

End ConstructionV1.

(** C10. Whatever the class, the argument and the store, as long as the
    global object has no property [getAPIHost], constructing an instance
    in the builder variant throws [ReferenceError] on [getAPIHost] before
    anything else happens; [list] and [create], which construct an
    instance first, end in the same error, and no call is issued. *)
Theorem construction_throws_ReferenceError
    (env : JS.host) (fuel : nat) (k : V1.klass) (arg : JS.value) (st : JS.state) :
  JS.globals st !! "getAPIHost"%string = None →
  (∃ st', V1.constructor env fuel k arg st
            = JS.Err (JS.ReferenceError "getAPIHost") st'
          ∧ JS.net st' = JS.net st) ∧
  (∃ st', V1.create env fuel k arg st
            = JS.Err (JS.ReferenceError "getAPIHost") st'
          ∧ JS.net st' = JS.net st) ∧
  (∃ st', V1.list env fuel k arg st
            = JS.Err (JS.ReferenceError "getAPIHost") st'
          ∧ JS.net st' = JS.net st).
Proof.
  intros H. repeat split.
  - eexists. split; [by apply constructor_v1_throws|done].
  - eexists. unfold V1.create. unfold JS.bind at 1.
    rewrite constructor_v1_throws by done. done.
  - unfold V1.list. unfold JS.bind at 1.
    destruct (JS.truthy arg).
    + eexists. simpl. unfold JS.bind at 1.
      rewrite constructor_v1_throws by done. done.
    + eexists. unfold JS.bind at 1. simpl. unfold JS.bind at 1.
      rewrite constructor_v1_throws by done. done.
Qed.

(** The theorem at work: [new MyNiceModel(1)], the construction of
    [src/unnamed/part_000]. *)
Lemma construction_throws_ReferenceError_witness :
  (∃ st', V1.constructor Scenario.echo_env 30 Scenario.MyNiceModel (JS.VNum 1)
            Scenario.builder_store
            = JS.Err (JS.ReferenceError "getAPIHost") st'
          ∧ JS.net st' = JS.net Scenario.builder_store) ∧
  (∃ st', V1.create Scenario.echo_env 30 Scenario.MyNiceModel (JS.VNum 1)
            Scenario.builder_store
            = JS.Err (JS.ReferenceError "getAPIHost") st'
          ∧ JS.net st' = JS.net Scenario.builder_store) ∧
  (∃ st', V1.list Scenario.echo_env 30 Scenario.MyNiceModel (JS.VNum 1)
            Scenario.builder_store
            = JS.Err (JS.ReferenceError "getAPIHost") st'
          ∧ JS.net st' = JS.net Scenario.builder_store).
Proof.
  apply (construction_throws_ReferenceError Scenario.echo_env 30
           Scenario.MyNiceModel (JS.VNum 1) Scenario.builder_store).
  reflexivity.
Defined.

(** In the builder variant an instance without identity would send its
    verb to the collection as well, and hydrating it twice with the same
    raw object leaves the store as the first call left it. *)
Lemma v1_instance_examples :
  Observe.issued
    (V1.delete Scenario.echo_env Scenario.MyNiceModel Scenario.v1_instance
       Scenario.v1_store)
    = Some [JS.Request JS.DELETE Scenario.api "cars" None JS.VUndef] ∧
  ∃ st,
    V1.fillIn Scenario.echo_env Scenario.MyNiceModel Scenario.v1_instance
      Scenario.raw Scenario.v1_store = JS.Ok Scenario.v1_instance st ∧
    V1.fillIn Scenario.echo_env Scenario.MyNiceModel Scenario.v1_instance
      Scenario.raw st = JS.Ok Scenario.v1_instance st.
Proof.
  split; [vm_compute; reflexivity|].
  eexists. split; vm_compute; reflexivity.
Qed.

(** What the builder variant does once an instance exists: hydrating the
    collection-bound instance with [{id: 7, name: "x"}] returns the
    instance, sets its identity and rebinds [$resource], so that the next
    [retrieve()] goes to [cars/7]. *)
Lemma fillIn_v1_rebinds :
  ∃ st,
    V1.fillIn Scenario.echo_env Scenario.MyNiceModel Scenario.v1_instance
      Scenario.raw Scenario.v1_store = JS.Ok Scenario.v1_instance st ∧
    Observe.field Scenario.v1_instance "id" st = Some (JS.VNum 7) ∧
    Observe.field Scenario.v1_instance "$resource" st
      = Some (JS.VRes Scenario.api "cars" (Some (JS.VNum 7)) []) ∧
    Observe.issued
      (V1.retrieve Scenario.echo_env Scenario.MyNiceModel Scenario.v1_instance st)
      = Some [JS.Request JS.GET Scenario.api "cars" (Some (JS.VNum 7)) JS.VUndef].
Proof.
  eexists. split; [vm_compute; reflexivity|].
  repeat split; vm_compute; reflexivity.
Qed.

(** ** The builder *)

Section BuilderFacts.
Import JS Observe.

Lemma field_get_prop v key st x :
  field v key st = Some x → get_prop v key st = Ok x st.
Proof.
  unfold field, get_prop. destruct v; try done.
  destruct (heap st !! l) as [[| | |]|]; try done. by intros ->.
Qed.

Lemma get_prop_plain c props key st :
  heap st !! c = Some (OObj props) →
  get_prop (VRef c) key st = Ok (default VUndef (props !! key)) st.
Proof. intros H. unfold get_prop. by rewrite H. Qed.

Lemma set_prop_plain c props key x st :
  heap st !! c = Some (OObj props) →
  set_prop (VRef c) key x st
  = Ok tt (set_heap (insert c (OObj (<[key:=x]> props))) st).
Proof. intros H. unfold set_prop. by rewrite H. Qed.

Lemma push_Ok xs x st u st' :
  V1.push xs x st = Ok u st' →
  ∃ l elems, xs = VRef l ∧ heap st !! l = Some (OArr elems) ∧
             st' = set_heap (insert l (OArr (elems ++ [x]))) st.
Proof.
  unfold V1.push. destruct xs; try done.
  destruct (heap st !! l) as [[| | |]|] eqn:Hl; try done.
  intros [= <-]. eauto.
Qed.

(** Writing a plain object where a plain object was leaves every
    listing as it is. *)
Lemma list_of_insert_plain v c props props' (h : gmap loc object) :
  h !! c = Some (OObj props) →
  V1.list_of v (<[c := OObj props']> h) = V1.list_of v h.
Proof.
  intros Hc. unfold V1.list_of. destruct v; try done.
  destruct (decide (l = c)) as [->|Hne].
  - by rewrite lookup_insert_eq, Hc.
  - by rewrite lookup_insert_ne.
Qed.

(** [build] on a builder: the three outcomes, none of which changes the
    store. *)
Lemma build_cases this c props st :
  field this "config" st = Some (VRef c) →
  heap st !! c = Some (OObj props) →
  V1.build this st =
    if negb (truthy (default VUndef (props !! "baseURL"%string)))
    then Err NoBaseURLError st
    else if negb (truthy (default VUndef (props !! "resource"%string)))
         then Err NoResourceError st
         else Ok {| V1.k_config := VRef c; V1.k_static_config := VUndef;
                    V1.k_methods := ∅ |} st.
Proof.
  intros Hthis Hc. apply field_get_prop in Hthis.
  unfold V1.build. unfold bind at 1. rewrite Hthis.
  unfold bind at 1. rewrite (get_prop_plain c props) by done.
  destruct (truthy (default VUndef (props !! "baseURL"%string))); [|done].
  simpl. unfold bind at 1. rewrite Hthis.
  unfold bind at 1. rewrite (get_prop_plain c props) by done.
  destruct (truthy (default VUndef (props !! "resource"%string))); [|done].
  simpl. unfold bind at 1. by rewrite Hthis.
Qed.

Lemma build_Ok this c st k st1 :
  is_builder this c st → V1.build this st = Ok k st1 →
  st1 = st ∧ V1.k_config k = VRef c.
Proof.
  intros [Hthis (props & Hc)] H.
  rewrite (build_cases this c props) in H by done.
  destruct (negb _); [done|]. destruct (negb _); [done|].
  by injection H as <- <-.
Qed.

(** A write into the configuration object leaves [this.config] where it
    was. *)
Lemma is_builder_write this c props key x st :
  key ≠ "config"%string →
  is_builder this c st → heap st !! c = Some (OObj props) →
  is_builder this c (set_heap (insert c (OObj (<[key:=x]> props))) st).
Proof.
  intros Hkey [Hthis _] Hc. split.
  - unfold field in *. destruct this; try done. simpl.
    destruct (decide (l = c)) as [->|Hne].
    + rewrite lookup_insert_eq. rewrite Hc in Hthis.
      by rewrite lookup_insert_ne.
    + by rewrite lookup_insert_ne.
  - exists (<[key:=x]> props). simpl. by rewrite lookup_insert_eq.
Qed.

Lemma is_builder_push this c l elems elems' st :
  is_builder this c st → heap st !! l = Some (OArr elems) →
  is_builder this c (set_heap (insert l (OArr elems')) st).
Proof.
  intros [Hthis (props & Hc)] Hl. split.
  - unfold field in *. destruct this; try done. simpl.
    destruct (decide (l0 = l)) as [->|Hne].
    + by rewrite Hl in Hthis.
    + by rewrite lookup_insert_ne.
  - exists props. simpl. rewrite lookup_insert_ne; [done|]. congruence.
Qed.

Lemma builder_config_observed this c st :
  is_builder this c st →
  V1.builder_config this st = V1.view_config (VRef c) (heap st).
Proof.
  intros [Hthis _]. unfold V1.builder_config.
  by rewrite (field_get_prop _ _ _ _ Hthis).
Qed.

(** The view of the configuration after a write into it. *)
Lemma view_after_write c props key x st :
  heap st !! c = Some (OObj props) →
  V1.view_config (VRef c) (heap (set_heap (insert c (OObj (<[key:=x]> props))) st))
  = Some {| V1.cv_resource := default VUndef (<[key:=x]> props !! "resource"%string);
            V1.cv_baseURL := default VUndef (<[key:=x]> props !! "baseURL"%string);
            V1.cv_requestListeners :=
              V1.list_of (default VUndef (<[key:=x]> props !! "requestListeners"%string))
                (heap (set_heap (insert c (OObj (<[key:=x]> props))) st));
            V1.cv_innerResources :=
              V1.list_of (default VUndef (<[key:=x]> props !! "innerResources"%string))
                (heap (set_heap (insert c (OObj (<[key:=x]> props))) st)) |}.
Proof. intros Hc. unfold V1.view_config. simpl. by rewrite lookup_insert_eq. Qed.

Lemma view_plain c props st :
  heap st !! c = Some (OObj props) →
  V1.view_config (VRef c) (heap st)
  = Some {| V1.cv_resource := default VUndef (props !! "resource"%string);
            V1.cv_baseURL := default VUndef (props !! "baseURL"%string);
            V1.cv_requestListeners :=
              V1.list_of (default VUndef (props !! "requestListeners"%string)) (heap st);
            V1.cv_innerResources :=
              V1.list_of (default VUndef (props !! "innerResources"%string)) (heap st) |}.
Proof. intros Hc. unfold V1.view_config. by rewrite Hc. Qed.

(** Every mutation keeps the builder on its configuration object and
    shows in the view of that object. *)
Lemma mutate_effect this c m st v st2 :
  is_builder this c st → V1.mutate this m st = Ok v st2 →
  is_builder this c st2 ∧
  ∃ before after,
    V1.view_config (VRef c) (heap st) = Some before ∧
    V1.view_config (VRef c) (heap st2) = Some after ∧
    reflects m (heap st2) before after.
Proof.
  intros Hb Hm. pose proof Hb as [Hthis (props & Hc)].
  apply field_get_prop in Hthis.
  destruct m as [r|u|r|rs|f]; simpl in Hm.
  - unfold V1.setResource in Hm. unfold bind at 1 in Hm. rewrite Hthis in Hm.
    unfold bind at 1 in Hm. rewrite (set_prop_plain c props) in Hm by done.
    injection Hm as _ <-. split; [by apply is_builder_write|].
    eexists _, _. split; [by apply view_plain|].
    split; [by apply view_after_write|]. simpl. by rewrite lookup_insert_eq.
  - unfold V1.setBaseURL in Hm. unfold bind at 1 in Hm. rewrite Hthis in Hm.
    unfold bind at 1 in Hm. rewrite (set_prop_plain c props) in Hm by done.
    injection Hm as _ <-. split; [by apply is_builder_write|].
    eexists _, _. split; [by apply view_plain|].
    split; [by apply view_after_write|]. simpl. by rewrite lookup_insert_eq.
  - unfold V1.addInnerResource in Hm. unfold bind at 1 in Hm. rewrite Hthis in Hm.
    unfold bind at 1 in Hm. rewrite (get_prop_plain c props) in Hm by done.
    apply bind_Ok in Hm as ([] & s1 & Hpush & Hm). injection Hm as _ <-.
    apply push_Ok in Hpush as (l & elems & Hinner & Hl & ->).
    split; [by eapply is_builder_push|].
    assert (c ≠ l) as Hcl by congruence.
    eexists _, _. split; [by apply view_plain|]. split.
    + apply view_plain. simpl. by rewrite lookup_insert_ne.
    + simpl. exists elems. rewrite Hinner. unfold V1.list_of.
      by rewrite Hl, lookup_insert_eq.
  - unfold V1.setInnerResources in Hm. unfold bind at 1 in Hm. rewrite Hthis in Hm.
    unfold bind at 1 in Hm. rewrite (set_prop_plain c props) in Hm by done.
    injection Hm as _ <-. split; [by apply is_builder_write|].
    eexists _, _. split; [by apply view_plain|].
    split; [by apply view_after_write|]. simpl. by rewrite lookup_insert_eq.
  - unfold V1.addOnRequestListener in Hm. unfold bind at 1 in Hm. rewrite Hthis in Hm.
    unfold bind at 1 in Hm. rewrite (get_prop_plain c props) in Hm by done.
    apply bind_Ok in Hm as ([] & s1 & Hpush & Hm). injection Hm as _ <-.
    apply push_Ok in Hpush as (l & elems & Hinner & Hl & ->).
    split; [by eapply is_builder_push|].
    assert (c ≠ l) as Hcl by congruence.
    eexists _, _. split; [by apply view_plain|]. split.
    + apply view_plain. simpl. by rewrite lookup_insert_ne.
    + simpl. exists elems. rewrite Hinner. unfold V1.list_of.
      by rewrite Hl, lookup_insert_eq.
Qed.

(** The constructor of the builder makes a builder in this sense, with
    neither setting present. *)
Lemma new_builder_is_builder st b st' :
  V1.new_builder st = Ok b st' →
  ∃ c, is_builder b c st' ∧
       field (VRef c) "baseURL" st' = Some VNull ∧
       field (VRef c) "resource" st' = Some VNull.
Proof.
  unfold V1.new_builder, bind, alloc. intros [= <- <-].
  cbn [heap set_heap net globals].
  set (l1 := fresh (dom (heap st))).
  set (h1 := <[l1 := OArr []]> (heap st)).
  set (l2 := fresh (dom h1)).
  set (h2 := <[l2 := OArr []]> h1).
  set (l3 := fresh (dom h2)).
  set (h3 := <[l3 := OObj _]> h2).
  set (l4 := fresh (dom h3)).
  exists l3.
  assert (l4 ≠ l3) as Hne.
  { intros Heq. apply (is_fresh (dom h3)). fold l4. rewrite Heq.
    apply elem_of_dom. unfold h3. rewrite lookup_insert_eq. eauto. }
  unfold is_builder, field, set_heap. cbn [heap].
  fold h1. fold h2. fold h3.
  rewrite lookup_insert_eq, lookup_insert_ne by done.
  unfold h3. rewrite lookup_insert_eq.
  repeat split; eauto.
Qed.

End BuilderFacts.



(** A builder fresh from its constructor has neither setting; with the
    base URL alone it still lacks the resource. *)
Lemma build_on_fresh_builder :
  Observe.returned
    (JS.bind V1.new_builder (fun b => V1.build b) Scenario.start) = None ∧
  (∃ st, JS.bind V1.new_builder V1.build Scenario.start
         = JS.Err JS.NoBaseURLError st) ∧
  (∃ st, JS.bind V1.new_builder (fun b =>
           JS.bind (V1.setBaseURL b (JS.VStr "http://mysite.com/my-api"))
                   (fun _ => V1.build b)) Scenario.start
         = JS.Err JS.NoResourceError st).
Proof.
  split; [vm_compute; reflexivity|].
  split; eexists; vm_compute; reflexivity.
Qed.

(** The builder store of the scenario is what the chain of
    [src/unnamed/part_000] produces, and [MyNiceModel] what it builds. *)
Lemma part_000_builds_MyNiceModel :
  JS.bind V1.new_builder (fun b =>
    JS.bind (V1.setBaseURL b (JS.VStr "http://mysite.com/my-api")) (fun _ =>
    JS.bind (V1.setResource b (JS.VStr "nice-models")) (fun _ =>
    JS.bind (V1.build b) (fun k => JS.ret (b, k))))) Scenario.start
  = JS.Ok (Scenario.builder, Scenario.MyNiceModel) Scenario.builder_store.
Proof. vm_compute. reflexivity. Qed.

(** C4, as stated, fails: after [build()] has returned [MyNiceModel], a
    later [setResource("others")] on the same builder changes the
    configuration that [MyNiceModel] observes. *)
Lemma later_setResource_shows_in_built_class :
  V1.build Scenario.builder Scenario.builder_store
    = JS.Ok Scenario.MyNiceModel Scenario.builder_store ∧
  V1.mutate Scenario.builder (V1.SetResource (JS.VStr "others")) Scenario.builder_store
    = JS.Ok Scenario.builder Scenario.renamed_store ∧
  V1.observed_config Scenario.MyNiceModel Scenario.renamed_store
    ≠ V1.observed_config Scenario.MyNiceModel Scenario.builder_store ∧
  V1.cv_resource <$> V1.observed_config Scenario.MyNiceModel Scenario.builder_store
    = Some (JS.VStr "nice-models") ∧
  V1.cv_resource <$> V1.observed_config Scenario.MyNiceModel Scenario.renamed_store
    = Some (JS.VStr "others").
Proof.
  split; [vm_compute; reflexivity|].
  split; [vm_compute; reflexivity|].
  split; [|split; vm_compute; reflexivity].
  intros H. vm_compute in H. discriminate H.
Qed.

(** C4, amended.  The class that [build()] returns holds no snapshot: its
    configuration is the builder's own configuration object.  After any
    later mutation of the builder that returns, the configuration the class
    observes is the builder's current one, and the mutation shows in it:
    the new resource or base URL, the replaced list of inner resources, or
    the list with the added inner resource or listener at its end. *)
Theorem built_class_shares_configuration
    (this : JS.value) (c : JS.loc) (st st1 st2 : JS.state) (k : V1.klass)
    (m : V1.mutation) (v : JS.value) :
  Observe.is_builder this c st →
  V1.build this st = JS.Ok k st1 →
  V1.mutate this m st1 = JS.Ok v st2 →
  ∃ before after,
    V1.observed_config k st1 = Some before ∧
    V1.observed_config k st2 = Some after ∧
    V1.builder_config this st2 = Some after ∧
    Observe.reflects m (JS.heap st2) before after.
Proof.
  intros Hb Hbuild Hm.
  destruct (build_Ok this c st k st1 Hb Hbuild) as [-> Hk].
  destruct (mutate_effect this c m st v st2 Hb Hm)
    as (Hb2 & before & after & H1 & H2 & Hr).
  exists before, after. unfold V1.observed_config. rewrite Hk.
  repeat split; [done..| |done].
  by rewrite (builder_config_observed this c st2 Hb2).
Qed.

(** The theorem at work: [setResource("others")] after [MyNiceModel] was
    built. *)
Lemma built_class_shares_configuration_witness :
  ∃ before after,
    V1.observed_config Scenario.MyNiceModel Scenario.builder_store = Some before ∧
    V1.observed_config Scenario.MyNiceModel Scenario.renamed_store = Some after ∧
    V1.builder_config Scenario.builder Scenario.renamed_store = Some after ∧
    Observe.reflects (V1.SetResource (JS.VStr "others"))
      (JS.heap Scenario.renamed_store) before after.
Proof.
  apply (built_class_shares_configuration Scenario.builder 3
           Scenario.builder_store Scenario.builder_store Scenario.renamed_store
           Scenario.MyNiceModel (V1.SetResource (JS.VStr "others"))
           Scenario.builder).
  - split; [vm_compute; reflexivity|]. eexists. vm_compute. reflexivity.
  - vm_compute. reflexivity.
  - vm_compute. reflexivity.
Defined.

(** * Further properties of the code *)

(** ** The case converter, whatever the input *)

Section ConverterMore.
Import Util.

(** More iterations never change a result already reached. *)
Lemma loop_fuel_mono fuel : ∀ fuel' i input r,
  loop fuel i input = Some r → fuel ≤ fuel' → loop fuel' i input = Some r.
Proof.
  induction fuel as [|fuel IH]; intros fuel' i input r H Hle; [done|].
  destruct fuel' as [|fuel']; [lia|].
  cbn [loop] in *. destruct (i <? length input); [|done].
  apply IH; [done|lia].
Qed.

Lemma camelToKebab_fuel_mono fuel fuel' input r :
  camelToKebab fuel input = Some r → fuel ≤ fuel' →
  camelToKebab fuel' input = Some r.
Proof.
  unfold camelToKebab. intros H Hle.
  destruct (loop fuel 0 _) as [s|] eqn:Hl; [|done].
  by rewrite (loop_fuel_mono fuel fuel' 0 _ s Hl Hle).
Qed.

(** The rule of the converter puts a hyphen wherever a capital sits past
    the start. *)
Lemma hyphenate_from_hyphen s : ∀ i k c,
  0 < i → s !! k = Some c → is_upper_letter c = true →
  ∃ j, hyphenate_from i s !! j = Some hyphen.
Proof.
  induction s as [|c0 s IH]; intros i k c Hi Hk Hc; [done|].
  destruct k as [|k].
  - injection Hk as ->. exists 0. simpl. rewrite Hc.
    apply Nat.ltb_lt in Hi. by rewrite Hi.
  - destruct (IH (S i) k c) as [j Hj]; [lia|done..|].
    simpl. destruct (is_upper_letter c0 && (0 <? i)).
    + by exists (S (S j)).
    + by exists (S j).
Qed.

Lemma spec_output_has_hyphen input k c :
  0 < k → list_ascii_of_string input !! k = Some c → is_upper_letter c = true →
  ∃ j, 0 < j ∧ list_ascii_of_string (toHyphenated_spec input) !! j = Some hyphen.
Proof.
  intros Hk Hc Hup. unfold toHyphenated_spec.
  rewrite list_ascii_of_string_of_list_ascii.
  destruct (list_ascii_of_string input) as [|c0 s]; [done|].
  destruct k as [|k]; [lia|]. simpl in Hc.
  destruct (hyphenate_from_hyphen s 1 k c) as [j Hj]; [lia|done..|].
  exists (S j). split; [lia|].
  assert (hyphenate_from 0 (c0 :: s) = c0 :: hyphenate_from 1 s) as ->
    by (simpl; by rewrite andb_false_r).
  unfold toLowerCase. rewrite list_lookup_fmap.
  change ((c0 :: hyphenate_from 1 s) !! S j) with (hyphenate_from 1 s !! j).
  by rewrite Hj.
Qed.

End ConverterMore.



(** X2. On an identifier made of letters whose first letter, if a
    capital, does not occur again, the converter returns, for every
    number of iterations from [2 * length + 1] on, the string that the
    rule gives: a hyphen before each capital past index 0, all in lower
    case. *)
Theorem converter_follows_rule_on_identifiers (fuel : nat) (input : string) :
  Util.plain_identifier (list_ascii_of_string input) →
  2 * String.length input + 1 ≤ fuel →
  Util.camelToKebab fuel input = Some (Util.toHyphenated_spec input) ∧
  Util.camelCaseToHyphen fuel input = Some (Util.toHyphenated_spec input).
Proof.
  intros Hp Hle. destruct (converter_on_identifiers input Hp) as [H _].
  assert (Util.camelToKebab fuel input = Some (Util.toHyphenated_spec input)) as Hk
    by (by apply (camelToKebab_fuel_mono _ fuel) in H).
  split; [done|]. exact Hk.
Qed.

Lemma converter_follows_rule_on_identifiers_witness :
  Util.camelToKebab 40 "repairAll" = Some (Util.toHyphenated_spec "repairAll") ∧
  Util.camelCaseToHyphen 40 "repairAll" = Some (Util.toHyphenated_spec "repairAll").
Proof.
  apply (converter_follows_rule_on_identifiers 40 "repairAll").
  - split; [|intros _; reflexivity].
    simpl. repeat (constructor; [reflexivity|]). constructor.
  - simpl. lia.
Defined.

(** X3. The converter cannot be applied to its own output: when an
    identifier of that kind has a capital past index 0, the converter
    turns it into a string with a hyphen in it, and on that string it
    never returns. *)
Theorem converter_loops_on_its_output
    (fuel fuel' : nat) (input : string) (k : nat) (c : ascii) :
  Util.plain_identifier (list_ascii_of_string input) →
  0 < k →
  list_ascii_of_string input !! k = Some c →
  Util.is_upper_letter c = true →
  2 * String.length input + 1 ≤ fuel →
  ∃ out, Util.camelToKebab fuel input = Some out ∧
         Util.camelToKebab fuel' out = None.
Proof.
  intros Hp Hk Hc Hup Hle.
  exists (Util.toHyphenated_spec input). split.
  - destruct (converter_on_identifiers input Hp) as [H _].
    by apply (camelToKebab_fuel_mono _ fuel) in H.
  - destruct (spec_output_has_hyphen input k c Hk Hc Hup) as (j & Hj & Hh).
    apply (converter_stuck fuel' _ j Util.hyphen Hj Hh). by split.
Qed.

Lemma converter_loops_on_its_output_witness :
  ∃ out, Util.camelToKebab 40 "repairAll" = Some out ∧
         Util.camelToKebab 1000 out = None.
Proof.
  apply (converter_loops_on_its_output 40 1000 "repairAll" 6 "A"%char).
  - split; [|intros _; reflexivity].
    simpl. repeat (constructor; [reflexivity|]). constructor.
  - lia.
  - reflexivity.
  - reflexivity.
  - simpl. lia.
Defined.

(** ** The static-configuration variant: the handle of a class *)

Section ClientMore.
Import JS Observe.

Lemma kebab_all_stuck fuel names m :
  m ∈ names → Util.camelToKebab fuel m = None → V2.kebab_all fuel names = None.
Proof.
  induction names as [|n names IH]; intros Hin Hm; [by apply elem_of_nil in Hin|].
  simpl. apply elem_of_cons in Hin as [<-|Hin]; [by rewrite Hm|].
  destruct (Util.camelToKebab fuel n); [|done]. by rewrite IH.
Qed.

Lemma kebab_all_plain fuel names :
  Forall (fun m => Util.plain_identifier (list_ascii_of_string m) ∧
                   2 * String.length m + 1 ≤ fuel) names →
  V2.kebab_all fuel names = Some (Util.toHyphenated_spec <$> names).
Proof.
  induction 1 as [|m names [Hp Hle] _ IH]; [done|].
  simpl. destruct (converter_on_identifiers m Hp) as [H _].
  rewrite (camelToKebab_fuel_mono _ fuel _ _ H Hle). by rewrite IH.
Qed.

(** The handle of a class does not depend on the store. *)
Lemma static_apiClient_any fuel k st st' v :
  V2.static_apiClient fuel k st = Ok v st → V2.static_apiClient fuel k st' = Ok v st'.
Proof.
  unfold V2.static_apiClient. destruct (V2.modelName k); try done.
  destruct (V2.kebab_all _ _); [|done]. by intros [= <-].
Qed.

Lemma static_apiClient_stuck fuel k name m j c st :
  V2.modelName k = VStr name →
  m ∈ V2.allMethodsOf k → m ≠ "constructor"%string →
  0 < j → list_ascii_of_string m !! j = Some c → Util.caseless c →
  V2.static_apiClient fuel k st = OutOfFuel.
Proof.
  intros Hn Hm Hc Hj Hl Hcl. unfold V2.static_apiClient. rewrite Hn.
  rewrite (kebab_all_stuck fuel _ m); [done| |].
  - apply list_elem_of_filter. by split.
  - by destruct (converter_stuck fuel m j c Hj Hl Hcl).
Qed.

(** With an identity the instance getter narrows the handle to it. *)
Lemma apiClient_with_identity env fuel k this st host name inner id :
  V2.static_apiClient fuel k st = Ok (VRes host name None inner) st →
  get_prop this "id" st = Ok id st → truthy id = true →
  V2.apiClient env fuel k this st = Ok (VRes host name (Some id) inner) st.
Proof.
  intros Hc Hid Ht. unfold V2.apiClient, bind. rewrite Hc, Hid, Ht, Hid.
  by destruct id.
Qed.

Lemma quiet_array_elems v : quiet (V2.array_elems v).
Proof.
  intros st. unfold V2.array_elems.
  destruct v; try done. by destruct (heap st !! l) as [[| | |]|].
Qed.

Lemma quiet_map_m {A B} (f : A → M B) xs :
  (∀ x, quiet (f x)) → quiet (map_m f xs).
Proof.
  intros Hf. induction xs as [|x xs IH]; simpl; [apply quiet_ret|].
  apply quiet_bind; [apply Hf|]. intros y.
  apply quiet_bind; [apply IH|]. intros ys. apply quiet_ret.
Qed.

Lemma quiet_constructor_v2 id : quiet (V2.constructor id).
Proof.
  unfold V2.constructor. apply quiet_bind; [apply quiet_alloc|].
  intros l. apply quiet_ret.
Qed.

(** What [list] does once the answer has come. *)
Lemma quiet_list_tail raw :
  quiet (bind (V2.array_elems raw) (fun elems =>
         bind (map_m (fun obj => bind V2.newInstance (fun i => V2.fillIn i obj)) elems)
              (fun out => bind (alloc (OArr out)) (fun l => ret (VRef l))))).
Proof.
  apply quiet_bind; [apply quiet_array_elems|]. intros elems.
  apply quiet_bind.
  - apply quiet_map_m. intros obj.
    apply quiet_bind; [apply quiet_constructor_v2|]. intros i. apply fillIn_v2_quiet.
  - intros out. apply quiet_bind; [apply quiet_alloc|]. intros l. apply quiet_ret.
Qed.

End ClientMore.







(** ** The static-configuration variant: what hydration writes *)

Section HydrationMore.
Import JS Observe.

Lemma set_heap_twice b o o' st :
  set_heap (insert b o') (set_heap (insert b o) st) = set_heap (insert b o') st.
Proof. unfold set_heap. simpl. by rewrite insert_insert_eq. Qed.

(** The bag after the loop has gone through [props], reading from the
    raw properties [R] and starting from [B]. *)
Lemma copied_lookup (R : gmap string value) props : ∀ (B : gmap string value) key,
  foldl (fun acc p => <[p := default VUndef (R !! p)]> acc) B props !! key
  = if bool_decide (key ∈ props) then Some (default VUndef (R !! key)) else B !! key.
Proof.
  induction props as [|p props IH]; intros B key; [done|].
  simpl. rewrite IH.
  destruct (decide (key ∈ props)) as [Hin|Hout].
  - rewrite bool_decide_eq_true_2 by done.
    by rewrite bool_decide_eq_true_2 by (by right).
  - rewrite (bool_decide_eq_false_2 (key ∈ props)) by done.
    destruct (decide (key = p)) as [->|Hne].
    + rewrite bool_decide_eq_true_2 by left. by rewrite lookup_insert_eq.
    + rewrite bool_decide_eq_false_2.
      * by rewrite lookup_insert_ne.
      * intros [?|?]%elem_of_cons; done.
Qed.

Lemma copied_all_keys (R B : gmap string value) :
  foldl (fun acc p => <[p := default VUndef (R !! p)]> acc) B (own_keys R) = R ∪ B.
Proof.
  apply map_eq. intros key. rewrite copied_lookup.
  destruct (R !! key) as [x|] eqn:HR.
  - rewrite bool_decide_eq_true_2.
    + simpl. symmetry. by apply lookup_union_Some_l.
    + unfold own_keys. apply list_elem_of_fmap. exists (key, x). split; [done|].
      by apply elem_of_map_to_list.
  - rewrite bool_decide_eq_false_2.
    + symmetry. by apply lookup_union_r.
    + unfold own_keys. intros ([k x] & -> & Hin)%list_elem_of_fmap.
      apply elem_of_map_to_list in Hin. simpl in HR. congruence.
Qed.

(** The loop of [fillIn] between plain objects: it returns, and writes
    the bag alone. *)
Lemma copy_all_plain i o b (P R : gmap string value) props : ∀ st (B : gmap string value),
  heap st !! i = Some (OObj P) → P !! "_data"%string = Some (VRef b) → b ≠ i →
  heap st !! b = Some (OObj B) → heap st !! o = Some (OObj R) →
  (∀ p, p ∈ props → is_Some (R !! p)) →
  for_each props (copy (VRef i) (VRef o)) st
  = Ok tt (set_heap (insert b (OObj
             (foldl (fun acc p => <[p := default VUndef (R !! p)]> acc) B props))) st).
Proof.
  induction props as [|p props IH]; intros st B Hi Hd Hbi Hb Ho Hkeys.
  - simpl. by rewrite set_heap_same.
  - assert (copy (VRef i) (VRef o) p st
            = Ok tt (set_heap (insert b (OObj (<[p := default VUndef (R !! p)]> B))) st))
      as Hstep.
    { unfold copy, bind, get_prop. rewrite Hi, Hd, Ho. simpl.
      unfold set_prop. by rewrite Hb. }
    cbn [for_each]. unfold bind at 1. rewrite Hstep.
    assert (o = b → <[p := default VUndef (R !! p)]> B = R) as Hself.
    { intros ->. rewrite Hb in Ho. injection Ho as ->.
      destruct (Hkeys p) as [x Hx]; [left|]. rewrite Hx. simpl. by apply insert_id. }
    rewrite (IH _ (<[p := default VUndef (R !! p)]> B)).
    + by rewrite set_heap_twice.
    + simpl. rewrite lookup_insert_ne by done. done.
    + done.
    + done.
    + simpl. by rewrite lookup_insert_eq.
    + simpl. destruct (decide (o = b)) as [Heq|Hne].
      * rewrite Heq, lookup_insert_eq. by rewrite Hself.
      * by rewrite lookup_insert_ne.
    + intros q Hq. apply Hkeys. by right.
Qed.

(** Hydrating a plain instance from a plain raw object that is not the
    instance itself: the call returns; the bag holds the raw properties
    over what it held before; nothing else of the store has changed but,
    on a first hydration, the instance's [_data]. *)
Lemma fillIn_v2_plain i o (P R : gmap string value) st :
  heap st !! i = Some (OObj P) → heap st !! o = Some (OObj R) → i ≠ o →
  bag_apart (VRef i) st →
  instanceof_Object (default VUndef (P !! "_data"%string)) = false
    ∨ is_Some (data_bag (VRef i) st) →
  ∃ st1 b,
    V2.fillIn (VRef i) (VRef o) st = Ok VUndef st1 ∧
    field (VRef i) "_data" st1 = Some (VRef b) ∧
    heap st1 !! b = Some (OObj (R ∪ default ∅ (data_bag (VRef i) st))) ∧
    (∀ key, key ≠ "_data"%string →
       field (VRef i) key st1 = field (VRef i) key st) ∧
    (∀ l, l ≠ b → l ≠ i → heap st1 !! l = heap st !! l) ∧
    heap st1 !! o = Some (OObj R) ∧
    net st1 = net st ∧ globals st1 = globals st.
Proof.
  intros Hi Ho Hio Hapart Hbag.
  unfold V2.fillIn. unfold bind at 1. unfold get_prop at 1. rewrite Hi.
  destruct Hbag as [Hnone|[B HB]].
  - (* first hydration: a fresh bag *)
    unfold bind at 1. rewrite Hnone.
    unfold bind at 1. unfold alloc.
    set (b := fresh (dom (heap st))).
    assert (heap st !! b = None) as Hfresh
      by (apply not_elem_of_dom; apply is_fresh).
    assert (b ≠ i) as Hbi by congruence.
    assert (b ≠ o) as Hbo by congruence.
    unfold set_prop at 1. simpl. rewrite lookup_insert_ne by done. rewrite Hi.
    set (s0 := set_heap (insert i (OObj (<["_data"%string := VRef b]> P)))
                 (set_heap (insert b (OObj ∅)) st)).
    unfold bind at 1. unfold getOwnPropertyNames.
    assert (heap s0 !! o = Some (OObj R)) as Ho0.
    { unfold s0. simpl. by rewrite !lookup_insert_ne by done. }
    rewrite Ho0. unfold bind at 1.
    change (for_each (own_keys R) _) with (for_each (own_keys R) (copy (VRef i) (VRef o))).
    rewrite (copy_all_plain i o b (<["_data"%string := VRef b]> P) R (own_keys R) s0 ∅).
    + rewrite copied_all_keys. eexists. exists b. split; [done|].
      assert (data_bag (VRef i) st = None) as ->.
      { unfold data_bag, field. rewrite Hi.
        destruct (P !! "_data"%string) as [[]|]; try done. }
      unfold field, s0. simpl.
      rewrite (lookup_insert_ne _ b i) by done. rewrite !lookup_insert_eq.
      repeat split.
      * intros key Hkey. by rewrite lookup_insert_ne.
      * intros l ? ?. by rewrite !lookup_insert_ne by done.
      * by rewrite !lookup_insert_ne by done.
    + unfold s0. simpl. by rewrite lookup_insert_eq.
    + by rewrite lookup_insert_eq.
    + done.
    + unfold s0. simpl. rewrite lookup_insert_ne by done. by rewrite lookup_insert_eq.
    + done.
    + intros p ([k x] & -> & Hin)%list_elem_of_fmap.
      apply elem_of_map_to_list in Hin. eauto.
  - (* a bag is there already *)
    unfold data_bag, field in HB. rewrite Hi in HB.
    destruct (P !! "_data"%string) as [[| | | | |b| |]|] eqn:Hd; try done.
    destruct (heap st !! b) as [[Bprops| | |]|] eqn:Hb; try done.
    injection HB as <-.
    assert (b ≠ i) as Hbi.
    { intros ->. apply Hapart. unfold get_prop. by rewrite Hi, Hd. }
    simpl. unfold bind at 1. simpl. unfold bind at 1.
    unfold getOwnPropertyNames. rewrite Ho. unfold bind at 1.
    change (for_each (own_keys R) _) with (for_each (own_keys R) (copy (VRef i) (VRef o))).
    rewrite (copy_all_plain i o b P R (own_keys R) st Bprops); try done.
    + rewrite copied_all_keys. eexists. exists b. split; [done|].
      assert (data_bag (VRef i) st = Some Bprops) as ->
        by (unfold data_bag, field; by rewrite Hi, Hd, Hb).
      unfold field. simpl. rewrite lookup_insert_ne by done. rewrite Hi.
      rewrite lookup_insert_eq.
      repeat split; [done| |].
      * intros l ? ?. by rewrite lookup_insert_ne.
      * destruct (decide (o = b)) as [->|Hne]; [|by rewrite lookup_insert_ne].
        rewrite lookup_insert_eq. rewrite Hb in Ho. injection Ho as ->.
        do 2 f_equal. apply map_eq. intros key. rewrite lookup_union.
        by destruct (R !! key).
    + intros p ([k x] & -> & Hin)%list_elem_of_fmap.
      apply elem_of_map_to_list in Hin. eauto.
Qed.

End HydrationMore.



(** X8. Hydration writes the data bag and nothing else.  Under the same
    conditions, after [fillIn] every property of the instance other than
    [_data], its [id] among them, is as it was, whatever the raw object
    carries; the raw object keeps its content, every object other than the
    bag and the instance is untouched, and no call has been issued. *)
Theorem fillIn_leaves_identity_alone
    (i o : JS.loc) (P R : gmap string JS.value) (st : JS.state) :
  JS.heap st !! i = Some (JS.OObj P) →
  JS.heap st !! o = Some (JS.OObj R) →
  i ≠ o →
  Observe.bag_apart (JS.VRef i) st →
  JS.instanceof_Object (default JS.VUndef (P !! "_data"%string)) = false
    ∨ is_Some (Observe.data_bag (JS.VRef i) st) →
  ∃ st1 b,
    V2.fillIn (JS.VRef i) (JS.VRef o) st = JS.Ok JS.VUndef st1 ∧
    Observe.field (JS.VRef i) "_data" st1 = Some (JS.VRef b) ∧
    Observe.field (JS.VRef i) "id" st1 = Observe.field (JS.VRef i) "id" st ∧
    (∀ key, key ≠ "_data"%string →
       Observe.field (JS.VRef i) key st1 = Observe.field (JS.VRef i) key st) ∧
    (∀ l, l ≠ b → l ≠ i → JS.heap st1 !! l = JS.heap st !! l) ∧
    JS.heap st1 !! o = Some (JS.OObj R) ∧
    JS.net st1 = JS.net st.
Proof.
  intros Hi Ho Hio Hapart Hbag.
  destruct (fillIn_v2_plain i o P R st Hi Ho Hio Hapart Hbag)
    as (st1 & b & Hrun & Hd & _ & Hkeep & Hframe & Hraw & Hnet & _).
  exists st1, b. repeat split; try done. by apply Hkeep.
Qed.

Lemma fillIn_leaves_identity_alone_witness :
  ∃ st1 b,
    V2.fillIn Scenario.car Scenario.raw Scenario.raw_store = JS.Ok JS.VUndef st1 ∧
    Observe.field Scenario.car "_data" st1 = Some (JS.VRef b) ∧
    Observe.field Scenario.car "id" st1
      = Observe.field Scenario.car "id" Scenario.raw_store ∧
    (∀ key, key ≠ "_data"%string →
       Observe.field Scenario.car key st1
       = Observe.field Scenario.car key Scenario.raw_store) ∧
    (∀ l, l ≠ b → l ≠ 1 → JS.heap st1 !! l = JS.heap Scenario.raw_store !! l) ∧
    JS.heap st1 !! 2 = Some (JS.OObj Scenario.raw_props) ∧
    JS.net st1 = JS.net Scenario.raw_store.
Proof.
  apply (fillIn_leaves_identity_alone 1 2 {[ "id"%string := JS.VUndef ]}
           Scenario.raw_props Scenario.raw_store).
  - vm_compute. reflexivity.
  - vm_compute. reflexivity.
  - lia.
  - intros H. vm_compute in H. discriminate H.
  - left. reflexivity.
Defined.

(** X9. [fillIn(undefined)] and [fillIn(null)] throw a [TypeError], after
    the data bag has been put in place: on a plain instance the call ends
    in that error with [this._data] holding an object, and no call has
    been issued. *)
Theorem fillIn_rejects_null
    (i : JS.loc) (P : gmap string JS.value) (raw : JS.value) (st : JS.state) :
  JS.heap st !! i = Some (JS.OObj P) →
  raw = JS.VUndef ∨ raw = JS.VNull →
  ∃ st1 d,
    V2.fillIn (JS.VRef i) raw st
      = JS.Err (JS.TypeError "cannot convert undefined or null to object") st1 ∧
    JS.get_prop (JS.VRef i) "_data" st1 = JS.Ok d st1 ∧
    JS.instanceof_Object d = true ∧
    JS.net st1 = JS.net st.
Proof.
  intros Hi Hraw. unfold V2.fillIn. unfold JS.bind at 1.
  unfold JS.get_prop at 1. rewrite Hi.
  destruct (JS.instanceof_Object (default JS.VUndef (P !! "_data"%string))) eqn:Hobj.
  - exists st, (default JS.VUndef (P !! "_data"%string)).
    unfold JS.bind at 1. simpl. unfold JS.bind at 1.
    unfold JS.get_prop. rewrite Hi.
    by destruct Hraw as [-> | ->].
  - unfold JS.bind at 1. unfold JS.bind at 1. unfold JS.alloc.
    set (b := fresh (dom (JS.heap st))).
    assert (JS.heap st !! b = None) as Hfresh
      by (apply not_elem_of_dom; apply is_fresh).
    assert (b ≠ i) as Hbi by congruence.
    unfold JS.set_prop. simpl. rewrite lookup_insert_ne by done. rewrite Hi.
    eexists _, (JS.VRef b). unfold JS.bind at 1.
    split; [by destruct Hraw as [-> | ->]|].
    unfold JS.get_prop. simpl. rewrite lookup_insert_eq.
    by rewrite lookup_insert_eq.
Qed.

Lemma fillIn_rejects_null_witness :
  ∃ st1 d,
    V2.fillIn Scenario.car JS.VNull Scenario.car_store
      = JS.Err (JS.TypeError "cannot convert undefined or null to object") st1 ∧
    JS.get_prop Scenario.car "_data" st1 = JS.Ok d st1 ∧
    JS.instanceof_Object d = true ∧
    JS.net st1 = JS.net Scenario.car_store.
Proof.
  apply (fillIn_rejects_null 1 {[ "id"%string := JS.VUndef ]} JS.VNull
           Scenario.car_store).
  - vm_compute. reflexivity.
  - right. reflexivity.
Defined.

(** ** The static-configuration variant: [list] and [create] *)

Section ListCreateMore.
Import JS Observe.

(** The arguments [list] sends and the store it sends them from. *)
Lemma default_args_run args st :
  V2.default_args args st
  = if truthy args then Ok args st
    else Ok (VRef (fresh (dom (heap st))))
            (set_heap (insert (fresh (dom (heap st))) (OObj ∅)) st).
Proof. unfold V2.default_args. by destruct (truthy args). Qed.

Lemma list_v2_unfold env fuel k args st host name inner :
  V2.static_apiClient fuel k st = Ok (VRes host name None inner) st →
  V2.list env fuel k args st
  = bind (send env GET (VRes host name None inner)
            (if truthy args then args else VRef (fresh (dom (heap st)))))
      (fun raw =>
         bind (V2.array_elems raw) (fun elems =>
         bind (map_m (fun obj => bind V2.newInstance (fun i => V2.fillIn i obj)) elems)
              (fun out => bind (alloc (OArr out)) (fun l => ret (VRef l)))))
      (if truthy args then st
       else set_heap (insert (fresh (dom (heap st))) (OObj ∅)) st).
Proof.
  intros Hc. unfold V2.list. unfold bind at 1. rewrite default_args_run.
  destruct (truthy args).
  - unfold bind at 1. by rewrite Hc.
  - unfold bind at 1. by rewrite (static_apiClient_any fuel k st _ _ Hc).
Qed.

End ListCreateMore.



(** X11. Whenever [list] resolves, it resolves to a new array with one
    element per element of the array the transport answered with, and
    every one of these elements is [undefined]. *)
Theorem list_resolves_to_undefined_elements
    (env : JS.host) (fuel : nat) (k : V2.klass) (args host raw v : JS.value)
    (name : string) (inner : list JS.value) (st st' : JS.state)
    (h : gmap JS.loc JS.object) (r : JS.loc) (elems : list JS.value) :
  V2.static_apiClient fuel k st = JS.Ok (JS.VRes host name None inner) st →
  JS.server env
    (JS.Request JS.GET host name None
       (if JS.truthy args then args else JS.VRef (fresh (dom (JS.heap st)))))
    (if JS.truthy args then JS.heap st
     else <[fresh (dom (JS.heap st)) := JS.OObj ∅]> (JS.heap st))
  = JS.Resolve (JS.VRef r) h →
  h !! r = Some (JS.OArr elems) →
  V2.list env fuel k args st = JS.Ok v st' →
  ∃ a, v = JS.VRef a ∧
       JS.heap st' !! a = Some (JS.OArr (replicate (length elems) JS.VUndef)).
Proof.
  intros Hc Hs Hr Hrun.
  rewrite (list_v2_unfold env fuel k args st host name inner Hc) in Hrun.
  apply bind_Ok in Hrun as (raw' & s1 & Hsend & Hrun).
  unfold JS.send in Hsend.
  assert (raw' = JS.VRef r ∧ JS.heap s1 = h) as [-> Hh].
  { destruct (JS.truthy args); simpl in Hsend; rewrite Hs in Hsend;
      by injection Hsend as <- <-. }
  apply bind_Ok in Hrun as (elems' & s2 & Hel & Hrun).
  unfold V2.array_elems in Hel. rewrite Hh, Hr in Hel. injection Hel as <- <-.
  apply bind_Ok in Hrun as (out & s3 & Hmap & Hrun).
  apply list_v2_elements in Hmap as ->.
  apply bind_Ok in Hrun as (a & s4 & Ha & Hrun).
  injection Hrun as <- <-. injection Ha as <- <-.
  eexists. split; [done|]. simpl. by rewrite lookup_insert_eq.
Qed.

Lemma list_resolves_to_undefined_elements_witness :
  ∃ a, JS.VRef 9 = JS.VRef a ∧
       JS.heap
         (match V2.list Scenario.collection_env 20 Scenario.Car JS.VUndef Scenario.start
          with JS.Ok _ st' => st' | _ => Scenario.start end) !! a
       = Some (JS.OArr (replicate (length [JS.VRef 2; JS.VRef 3]) JS.VUndef)).
Proof.
  eapply (list_resolves_to_undefined_elements Scenario.collection_env 20 Scenario.Car
            JS.VUndef Scenario.api JS.VUndef (JS.VRef 9) "cars"
            [JS.VStr "repair"; JS.VStr "repair-all"] Scenario.start _ _ 4
            [JS.VRef 2; JS.VRef 3]).
  - vm_compute. reflexivity.
  - vm_compute. reflexivity.
  - vm_compute. reflexivity.
  - vm_compute. reflexivity.
Defined.

(** X12. When the transport answers [list] with a plain object instead of
    an array (a page wrapper, say), [list] rejects with a [TypeError]: the
    GET has gone out, and nothing is hydrated. *)
Theorem list_rejects_plain_object
    (env : JS.host) (fuel : nat) (k : V2.klass) (args host : JS.value)
    (name : string) (inner : list JS.value) (st : JS.state)
    (h : gmap JS.loc JS.object) (r : JS.loc) (props : gmap string JS.value) :
  V2.static_apiClient fuel k st = JS.Ok (JS.VRes host name None inner) st →
  JS.server env
    (JS.Request JS.GET host name None
       (if JS.truthy args then args else JS.VRef (fresh (dom (JS.heap st)))))
    (if JS.truthy args then JS.heap st
     else <[fresh (dom (JS.heap st)) := JS.OObj ∅]> (JS.heap st))
  = JS.Resolve (JS.VRef r) h →
  h !! r = Some (JS.OObj props) →
  V2.list env fuel k args st
  = JS.Err (JS.TypeError "not a function")
      {| JS.heap := h;
         JS.net := JS.net st ++
           [JS.Request JS.GET host name None
              (if JS.truthy args then args else JS.VRef (fresh (dom (JS.heap st))))];
         JS.globals := JS.globals st |}.
Proof.
  intros Hc Hs Hr.
  rewrite (list_v2_unfold env fuel k args st host name inner Hc).
  unfold JS.bind at 1. unfold JS.send.
  destruct (JS.truthy args); simpl; simpl in Hs; rewrite Hs;
    unfold JS.bind at 1; unfold V2.array_elems; simpl; by rewrite Hr.
Qed.

Lemma list_rejects_plain_object_witness :
  V2.list Scenario.echo_env 20 Scenario.Car JS.VUndef Scenario.start
  = JS.Err (JS.TypeError "not a function")
      {| JS.heap :=
           <[2 := JS.OObj Scenario.raw_props]>
             (<[1 := JS.OObj ∅]> (JS.heap Scenario.start));
         JS.net := JS.net Scenario.start ++
           [JS.Request JS.GET Scenario.api "cars" None
              (if JS.truthy JS.VUndef then JS.VUndef
               else JS.VRef (fresh (dom (JS.heap Scenario.start))))];
         JS.globals := JS.globals Scenario.start |}.
Proof.
  apply (list_rejects_plain_object Scenario.echo_env 20 Scenario.Car JS.VUndef
           Scenario.api "cars" [JS.VStr "repair"; JS.VStr "repair-all"]
           Scenario.start _ 2 Scenario.raw_props).
  - vm_compute. reflexivity.
  - vm_compute. reflexivity.
  - vm_compute. reflexivity.
Defined.



(** ** The builder, as a record of four settings *)

Section BuilderMore.
Import JS Observe.

Lemma holds_view this r u fs rs st :
  Cases.holds this r u fs rs st →
  V1.builder_config this st
  = Some {| V1.cv_resource := r; V1.cv_baseURL := u;
            V1.cv_requestListeners := V1.Elems fs;
            V1.cv_innerResources := V1.Elems rs |}.
Proof.
  intros (c & props & lst & inn & Hthis & Hc & Hr & Hu & Hl & Hi & Hne & Hlst & Hinn).
  unfold V1.builder_config. rewrite (field_get_prop _ _ _ _ Hthis).
  rewrite (view_plain c props) by done.
  rewrite Hr, Hu, Hl, Hi. simpl. by rewrite Hlst, Hinn.
Qed.

Lemma holds_is_builder this r u fs rs st :
  Cases.holds this r u fs rs st → ∃ c, is_builder this c st.
Proof.
  intros (c & props & lst & inn & Hthis & Hc & _). exists c. split; eauto.
Qed.

(** A write of one of the two scalar settings. *)
Lemma holds_write this r u fs rs key x st :
  (key = "resource" ∨ key = "baseURL")%string →
  Cases.holds this r u fs rs st →
  ∃ c props,
    get_prop this "config" st = Ok (VRef c) st ∧
    heap st !! c = Some (OObj props) ∧
    Cases.holds this (if bool_decide (key = "resource"%string) then x else r)
      (if bool_decide (key = "baseURL"%string) then x else u) fs rs
      (set_heap (insert c (OObj (<[key:=x]> props))) st).
Proof.
  intros Hkey (c & props & lst & inn & Hthis & Hc & Hr & Hu & Hl & Hi & Hne & Hlst & Hinn).
  exists c, props. split; [by apply field_get_prop|]. split; [done|].
  assert (lst ≠ c) by congruence. assert (inn ≠ c) by congruence.
  exists c, (<[key:=x]> props), lst, inn.
  assert (is_builder this c (set_heap (insert c (OObj (<[key:=x]> props))) st)) as [Hf _].
  { apply is_builder_write; [intros ->; by destruct Hkey| |done]. split; eauto. }
  split; [done|]. simpl. rewrite lookup_insert_eq.
  rewrite (lookup_insert_ne _ c lst), (lookup_insert_ne _ c inn) by done.
  destruct Hkey as [-> | ->]; simpl;
    rewrite lookup_insert_eq, !lookup_insert_ne by done; done.
Qed.

(** A push onto one of the two lists. *)
Lemma holds_push_inner this r u fs rs x st :
  Cases.holds this r u fs rs st →
  ∃ st', V1.addInnerResource this x st = Ok this st' ∧ net st' = net st ∧
         Cases.holds this r u fs (rs ++ [x]) st'.
Proof.
  intros (c & props & lst & inn & Hthis & Hc & Hr & Hu & Hl & Hi & Hne & Hlst & Hinn).
  eexists. split; [|split].
  - unfold V1.addInnerResource. unfold bind at 1.
    rewrite (field_get_prop _ _ _ _ Hthis).
    unfold bind at 1. rewrite (get_prop_plain c props) by done. rewrite Hi. simpl.
    unfold bind at 1. unfold V1.push. rewrite Hinn. reflexivity.
  - done.
  - assert (c ≠ inn) by congruence.
    exists c, props, lst, inn.
    assert (is_builder this c (set_heap (insert inn (OArr (rs ++ [x]))) st)) as [Hf _].
    { eapply is_builder_push; [|done]. split; eauto. }
    split; [done|]. simpl.
    rewrite lookup_insert_eq, !lookup_insert_ne by done. done.
Qed.

Lemma holds_push_listener this r u fs rs x st :
  Cases.holds this r u fs rs st →
  ∃ st', V1.addOnRequestListener this x st = Ok this st' ∧ net st' = net st ∧
         Cases.holds this r u (fs ++ [x]) rs st'.
Proof.
  intros (c & props & lst & inn & Hthis & Hc & Hr & Hu & Hl & Hi & Hne & Hlst & Hinn).
  eexists. split; [|split].
  - unfold V1.addOnRequestListener. unfold bind at 1.
    rewrite (field_get_prop _ _ _ _ Hthis).
    unfold bind at 1. rewrite (get_prop_plain c props) by done. rewrite Hl. simpl.
    unfold bind at 1. unfold V1.push. rewrite Hlst. reflexivity.
  - done.
  - assert (c ≠ lst) by congruence.
    exists c, props, lst, inn.
    assert (is_builder this c (set_heap (insert lst (OArr (fs ++ [x]))) st)) as [Hf _].
    { eapply is_builder_push; [|done]. split; eauto. }
    split; [done|]. simpl.
    rewrite lookup_insert_eq, !lookup_insert_ne by done. done.
Qed.

Lemma holds_setResource this r u fs rs x st :
  Cases.holds this r u fs rs st →
  ∃ st', V1.setResource this x st = Ok this st' ∧ net st' = net st ∧
         Cases.holds this x u fs rs st'.
Proof.
  intros H.
  destruct (holds_write this r u fs rs "resource" x st) as (c & props & Hg & Hc & Hh);
    [by left|done|].
  eexists. split; [|split; [|exact Hh]].
  - unfold V1.setResource. unfold bind at 1. rewrite Hg.
    unfold bind at 1. rewrite (set_prop_plain c props) by done. reflexivity.
  - done.
Qed.

Lemma holds_setBaseURL this r u fs rs x st :
  Cases.holds this r u fs rs st →
  ∃ st', V1.setBaseURL this x st = Ok this st' ∧ net st' = net st ∧
         Cases.holds this r x fs rs st'.
Proof.
  intros H.
  destruct (holds_write this r u fs rs "baseURL" x st) as (c & props & Hg & Hc & Hh);
    [by right|done|].
  eexists. split; [|split; [|exact Hh]].
  - unfold V1.setBaseURL. unfold bind at 1. rewrite Hg.
    unfold bind at 1. rewrite (set_prop_plain c props) by done. reflexivity.
  - done.
Qed.

Lemma holds_chain_inner this r u fs xs : ∀ rs st,
  Cases.holds this r u fs rs st →
  ∃ st', Cases.chain V1.addInnerResource this xs st = Ok this st' ∧
         net st' = net st ∧ Cases.holds this r u fs (rs ++ xs) st'.
Proof.
  induction xs as [|x xs IH]; intros rs st H.
  - exists st. rewrite app_nil_r. done.
  - destruct (holds_push_inner this r u fs rs x st H) as (s1 & Hrun & Hn & H1).
    destruct (IH (rs ++ [x]) s1 H1) as (s2 & Hrun2 & Hn2 & H2).
    exists s2. simpl. unfold bind. rewrite Hrun, Hrun2.
    rewrite <- app_assoc in H2. split; [done|]. split; [congruence|done].
Qed.

Lemma holds_chain_listener this r u rs xs : ∀ fs st,
  Cases.holds this r u fs rs st →
  ∃ st', Cases.chain V1.addOnRequestListener this xs st = Ok this st' ∧
         net st' = net st ∧ Cases.holds this r u (fs ++ xs) rs st'.
Proof.
  induction xs as [|x xs IH]; intros fs st H.
  - exists st. rewrite app_nil_r. done.
  - destruct (holds_push_listener this r u fs rs x st H) as (s1 & Hrun & Hn & H1).
    destruct (IH (fs ++ [x]) s1 H1) as (s2 & Hrun2 & Hn2 & H2).
    exists s2. simpl. unfold bind. rewrite Hrun, Hrun2.
    rewrite <- app_assoc in H2. split; [done|]. split; [congruence|done].
Qed.

(** The constructor of the builder, from any store. *)
Lemma new_builder_holds st :
  ∃ b st', V1.new_builder st = Ok b st' ∧ net st' = net st ∧
           Cases.holds b VNull VNull [] [] st'.
Proof.
  unfold V1.new_builder, bind, alloc, ret, set_heap. cbn [heap net globals].
  set (l1 := fresh (dom (heap st))).
  set (h1 := <[l1 := OArr []]> (heap st)).
  set (l2 := fresh (dom h1)).
  set (h2 := <[l2 := OArr []]> h1).
  set (l3 := fresh (dom h2)).
  set (P := <["resource"%string := VNull]> _).
  set (h3 := <[l3 := OObj P]> h2).
  set (l4 := fresh (dom h3)).
  assert (l2 ≠ l1) as H21.
  { intros Heq. apply (is_fresh (dom h1)). fold l2. rewrite Heq.
    apply elem_of_dom. unfold h1. rewrite lookup_insert_eq. eauto. }
  assert (l3 ≠ l2) as H32.
  { intros Heq. apply (is_fresh (dom h2)). fold l3. rewrite Heq.
    apply elem_of_dom. unfold h2. rewrite lookup_insert_eq. eauto. }
  assert (l3 ≠ l1) as H31.
  { intros Heq. apply (is_fresh (dom h2)). fold l3. rewrite Heq.
    apply elem_of_dom. unfold h2, h1.
    rewrite lookup_insert_ne, lookup_insert_eq by done. eauto. }
  assert (l4 ≠ l3) as H43.
  { intros Heq. apply (is_fresh (dom h3)). fold l4. rewrite Heq.
    apply elem_of_dom. unfold h3. rewrite lookup_insert_eq. eauto. }
  assert (l4 ≠ l2) as H42.
  { intros Heq. apply (is_fresh (dom h3)). fold l4. rewrite Heq.
    apply elem_of_dom. unfold h3, h2.
    rewrite lookup_insert_ne, lookup_insert_eq by done. eauto. }
  assert (l4 ≠ l1) as H41.
  { intros Heq. apply (is_fresh (dom h3)). fold l4. rewrite Heq.
    apply elem_of_dom. unfold h3, h2, h1.
    rewrite !lookup_insert_ne, lookup_insert_eq by done. eauto. }
  eexists _, _. split; [reflexivity|]. split; [done|].
  exists l3, P, l1, l2. unfold field. cbn [heap]. fold h1 h2 h3 l4.
  rewrite lookup_insert_eq.
  rewrite (lookup_insert_ne _ l4 l3), (lookup_insert_ne _ l4 l1),
    (lookup_insert_ne _ l4 l2) by done.
  unfold h3. rewrite lookup_insert_eq.
  rewrite (lookup_insert_ne _ l3 l1), (lookup_insert_ne _ l3 l2) by done.
  unfold h2. rewrite lookup_insert_eq, (lookup_insert_ne _ l2 l1) by done.
  unfold h1. rewrite lookup_insert_eq.
  repeat split; try done.
Qed.

Lemma holds_build this r u fs rs st :
  Cases.holds this r u fs rs st →
  ∃ c, V1.build this st
       = if negb (truthy u) then Err NoBaseURLError st
         else if negb (truthy r) then Err NoResourceError st
         else Ok {| V1.k_config := VRef c; V1.k_static_config := VUndef;
                    V1.k_methods := ∅ |} st.
Proof.
  intros (c & props & lst & inn & Hthis & Hc & Hr & Hu & _).
  exists c. rewrite (build_cases this c props st Hthis Hc). by rewrite Hr, Hu.
Qed.

Lemma mutate_returns_this this m st v st' :
  V1.mutate this m st = Ok v st' → v = this.
Proof.
  destruct m; simpl;
    unfold V1.setResource, V1.setBaseURL, V1.addInnerResource,
      V1.setInnerResources, V1.addOnRequestListener;
    intros H; repeat (apply bind_Ok in H as (? & ? & _ & H));
    by injection H as <- _.
Qed.

Lemma mutate_all_keeps_builder this c ms : ∀ st v st',
  is_builder this c st → Cases.mutate_all this ms st = Ok v st' →
  v = this ∧ is_builder this c st'.
Proof.
  induction ms as [|m ms IH]; intros st v st' Hb H.
  - by injection H as <- <-.
  - simpl in H. apply bind_Ok in H as (b & s1 & Hm & H).
    pose proof (mutate_returns_this _ _ _ _ _ Hm) as ->.
    destruct (mutate_effect this c m st this s1 Hb Hm) as [Hb1 _].
    by apply (IH s1).
Qed.

Lemma build_static_config this st k st1 :
  V1.build this st = Ok k st1 → V1.k_static_config k = VUndef.
Proof.
  unfold V1.build. intros H.
  apply bind_Ok in H as (c & s1 & _ & H).
  apply bind_Ok in H as (u & s2 & _ & H).
  destruct (negb (truthy u)); [done|].
  apply bind_Ok in H as (c' & s3 & _ & H).
  apply bind_Ok in H as (r & s4 & _ & H).
  destruct (negb (truthy r)); [done|].
  apply bind_Ok in H as (c'' & s5 & _ & H).
  by injection H as <- _.
Qed.

End BuilderMore.

(** X14. Each method of the builder changes the one setting it names and
    nothing else, returns the builder itself, and issues no call: on a
    builder that holds the resource [r], the base URL [u], the listeners
    [fs] and the inner resources [rs], [setResource(x)] leaves
    [(x, u, fs, rs)], [setBaseURL(x)] leaves [(r, x, fs, rs)],
    [addInnerResource(x)] leaves [(r, u, fs, rs ++ [x])] and
    [addOnRequestListener(x)] leaves [(r, u, fs ++ [x], rs)]. *)
Theorem builder_methods_track_settings
    (this r u x : JS.value) (fs rs : list JS.value) (st : JS.state) :
  Cases.holds this r u fs rs st →
  (∃ st', V1.setResource this x st = JS.Ok this st' ∧ JS.net st' = JS.net st ∧
          Cases.holds this x u fs rs st') ∧
  (∃ st', V1.setBaseURL this x st = JS.Ok this st' ∧ JS.net st' = JS.net st ∧
          Cases.holds this r x fs rs st') ∧
  (∃ st', V1.addInnerResource this x st = JS.Ok this st' ∧ JS.net st' = JS.net st ∧
          Cases.holds this r u fs (rs ++ [x]) st') ∧
  (∃ st', V1.addOnRequestListener this x st = JS.Ok this st' ∧
          JS.net st' = JS.net st ∧
          Cases.holds this r u (fs ++ [x]) rs st').
Proof.
  intros H. repeat split.
  - by apply (holds_setResource this r u fs rs).
  - by apply (holds_setBaseURL this r u fs rs).
  - by apply holds_push_inner.
  - by apply holds_push_listener.
Qed.

(** The theorem at work: the builder of [src/unnamed/part_000]. *)
Lemma builder_methods_track_settings_witness :
  (∃ st', V1.setResource Scenario.builder (JS.VStr "others") Scenario.builder_store
            = JS.Ok Scenario.builder st' ∧
          JS.net st' = JS.net Scenario.builder_store ∧
          Cases.holds Scenario.builder (JS.VStr "others")
            (JS.VStr "http://mysite.com/my-api") [] [] st') ∧
  (∃ st', V1.setBaseURL Scenario.builder (JS.VStr "others") Scenario.builder_store
            = JS.Ok Scenario.builder st' ∧
          JS.net st' = JS.net Scenario.builder_store ∧
          Cases.holds Scenario.builder (JS.VStr "nice-models") (JS.VStr "others")
            [] [] st') ∧
  (∃ st', V1.addInnerResource Scenario.builder (JS.VStr "others")
            Scenario.builder_store = JS.Ok Scenario.builder st' ∧
          JS.net st' = JS.net Scenario.builder_store ∧
          Cases.holds Scenario.builder (JS.VStr "nice-models")
            (JS.VStr "http://mysite.com/my-api") [] ([] ++ [JS.VStr "others"]) st') ∧
  (∃ st', V1.addOnRequestListener Scenario.builder (JS.VStr "others")
            Scenario.builder_store = JS.Ok Scenario.builder st' ∧
          JS.net st' = JS.net Scenario.builder_store ∧
          Cases.holds Scenario.builder (JS.VStr "nice-models")
            (JS.VStr "http://mysite.com/my-api") ([] ++ [JS.VStr "others"]) [] st').
Proof.
  apply (builder_methods_track_settings Scenario.builder (JS.VStr "nice-models")
           (JS.VStr "http://mysite.com/my-api") (JS.VStr "others") [] []
           Scenario.builder_store).
  exists 3, (<["resource"%string := JS.VStr "nice-models"]>
            (<["baseURL"%string := JS.VStr "http://mysite.com/my-api"]>
            (<["requestListeners"%string := JS.VRef 1]>
            (<["innerResources"%string := JS.VRef 2]> ∅)))), 1, 2.
  repeat split; try (vm_compute; reflexivity). lia.
Defined.

(** X15. The whole life of a builder, from any store: [new ModelBuilder()]
    followed by [setBaseURL(u)], [setResource(r)], any chain of
    [addOnRequestListener] calls and any chain of [addInnerResource] calls
    returns the builder with exactly these settings, the lists in the
    order of the calls, and has issued no call; [build()] then throws
    [NoBaseURLError] when [u] is falsy, [NoResourceError] when [u] is
    truthy and [r] falsy, and otherwise returns a class that observes
    exactly these settings. *)
Theorem builder_lifecycle
    (u r : JS.value) (fs rs : list JS.value) (st : JS.state) :
  ∃ b st' c,
    JS.bind V1.new_builder (fun b0 =>
    JS.bind (V1.setBaseURL b0 u) (fun b1 =>
    JS.bind (V1.setResource b1 r) (fun b2 =>
    JS.bind (Cases.chain V1.addOnRequestListener b2 fs) (fun b3 =>
    Cases.chain V1.addInnerResource b3 rs)))) st = JS.Ok b st' ∧
    JS.net st' = JS.net st ∧
    V1.builder_config b st'
      = Some {| V1.cv_resource := r; V1.cv_baseURL := u;
                V1.cv_requestListeners := V1.Elems fs;
                V1.cv_innerResources := V1.Elems rs |} ∧
    V1.build b st'
      = (if negb (JS.truthy u) then JS.Err JS.NoBaseURLError st'
         else if negb (JS.truthy r) then JS.Err JS.NoResourceError st'
         else JS.Ok {| V1.k_config := JS.VRef c; V1.k_static_config := JS.VUndef;
                       V1.k_methods := ∅ |} st') ∧
    V1.view_config (JS.VRef c) (JS.heap st')
      = Some {| V1.cv_resource := r; V1.cv_baseURL := u;
                V1.cv_requestListeners := V1.Elems fs;
                V1.cv_innerResources := V1.Elems rs |}.
Proof.
  destruct (new_builder_holds st) as (b & s0 & Hnew & Hn0 & H0).
  destruct (holds_setBaseURL b _ _ _ _ u s0 H0) as (s1 & Hu & Hn1 & H1).
  destruct (holds_setResource b _ _ _ _ r s1 H1) as (s2 & Hr & Hn2 & H2).
  destruct (holds_chain_listener b _ _ _ fs _ s2 H2) as (s3 & Hf & Hn3 & H3).
  destruct (holds_chain_inner b _ _ _ rs _ s3 H3) as (s4 & Hi & Hn4 & H4).
  simpl in H3, H4.
  pose proof (holds_view _ _ _ _ _ _ H4) as Hview.
  destruct H4 as (c & props & lst & inn & Hthis & Hc & Hpr & Hpu & Hl & Hin & Hne
                    & Hlst & Hinn).
  exists b, s4, c.
  split; [|split; [congruence|split; [done|split]]].
  - unfold JS.bind. by rewrite Hnew, Hu, Hr, Hf, Hi.
  - rewrite (build_cases b c props s4 Hthis Hc). by rewrite Hpr, Hpu.
  - rewrite <- Hview. symmetry. apply builder_config_observed. split; eauto.
Qed.

(** X16. [setInnerResources(a)] stores the caller's array itself, not a
    copy of it: a later [addInnerResource(x)] on the builder appends [x]
    to the array the caller still holds. *)
Theorem setInnerResources_keeps_callers_array
    (this x : JS.value) (c a : JS.loc) (xs : list JS.value) (st : JS.state) :
  Observe.is_builder this c st →
  JS.heap st !! a = Some (JS.OArr xs) →
  ∃ st1 st2,
    V1.setInnerResources this (JS.VRef a) st = JS.Ok this st1 ∧
    JS.heap st1 !! a = Some (JS.OArr xs) ∧
    V1.addInnerResource this x st1 = JS.Ok this st2 ∧
    JS.heap st2 !! a = Some (JS.OArr (xs ++ [x])) ∧
    V1.cv_innerResources <$> V1.builder_config this st2
      = Some (V1.Elems (xs ++ [x])).
Proof.
  intros Hb Ha. pose proof Hb as [Hthis (props & Hc)].
  assert (a ≠ c) as Hac by congruence.
  pose proof (field_get_prop _ _ _ _ Hthis) as Hg.
  set (st1 := JS.set_heap
                (insert c (JS.OObj (<["innerResources"%string := JS.VRef a]> props))) st).
  assert (Observe.is_builder this c st1) as Hb1 by (by apply is_builder_write).
  pose proof Hb1 as [Hthis1 _].
  assert (JS.heap st1 !! c
          = Some (JS.OObj (<["innerResources"%string := JS.VRef a]> props))) as Hc1.
  { unfold st1. simpl. by rewrite lookup_insert_eq. }
  assert (JS.heap st1 !! a = Some (JS.OArr xs)) as Ha1.
  { unfold st1. simpl. by rewrite lookup_insert_ne. }
  set (st2 := JS.set_heap (insert a (JS.OArr (xs ++ [x]))) st1).
  assert (Observe.is_builder this c st2) as Hb2 by (by eapply is_builder_push).
  exists st1, st2. split; [|split; [done|split; [|split]]].
  - unfold V1.setInnerResources. unfold JS.bind at 1. rewrite Hg.
    unfold JS.bind at 1. by rewrite (set_prop_plain c props).
  - unfold V1.addInnerResource. unfold JS.bind at 1.
    rewrite (field_get_prop _ _ _ _ Hthis1).
    unfold JS.bind at 1. rewrite (get_prop_plain c _ _ _ Hc1).
    rewrite lookup_insert_eq. simpl.
    unfold JS.bind at 1. unfold V1.push. by rewrite Ha1.
  - unfold st2. simpl. by rewrite lookup_insert_eq.
  - rewrite (builder_config_observed this c st2 Hb2).
    rewrite (view_plain c (<["innerResources"%string := JS.VRef a]> props)).
    + simpl. rewrite lookup_insert_eq. simpl. unfold V1.list_of.
      by rewrite lookup_insert_eq.
    + unfold st2. simpl. by rewrite lookup_insert_ne.
Qed.

(** The theorem at work: the caller's array [["wheels"]]. *)
Lemma setInnerResources_keeps_callers_array_witness :
  ∃ st1 st2,
    V1.setInnerResources Scenario.builder Cases.parts Cases.parts_store
      = JS.Ok Scenario.builder st1 ∧
    JS.heap st1 !! 5 = Some (JS.OArr [JS.VStr "wheels"]) ∧
    V1.addInnerResource Scenario.builder (JS.VStr "doors") st1
      = JS.Ok Scenario.builder st2 ∧
    JS.heap st2 !! 5 = Some (JS.OArr ([JS.VStr "wheels"] ++ [JS.VStr "doors"])) ∧
    V1.cv_innerResources <$> V1.builder_config Scenario.builder st2
      = Some (V1.Elems ([JS.VStr "wheels"] ++ [JS.VStr "doors"])).
Proof.
  apply (setInnerResources_keeps_callers_array Scenario.builder (JS.VStr "doors")
           3 5 [JS.VStr "wheels"] Cases.parts_store).
  - split; [vm_compute; reflexivity|]. eexists. vm_compute. reflexivity.
  - vm_compute. reflexivity.
Defined.

(** X17. [setInnerResources] accepts what is no array, and [build()] does
    not look at the inner resources; the mistake shows at the next
    [addInnerResource], which throws a [TypeError].  For a string, [null]
    or [undefined] given as the list: the setter returns the builder,
    [build()] answers as it did before, and [addInnerResource] throws and
    leaves the store as it was. *)
Theorem addInnerResource_needs_an_array
    (this rs x : JS.value) (c : JS.loc) (st : JS.state) :
  Observe.is_builder this c st →
  (rs = JS.VNull ∨ rs = JS.VUndef ∨ ∃ s, rs = JS.VStr s) →
  ∃ st1,
    V1.setInnerResources this rs st = JS.Ok this st1 ∧
    Observe.returned (V1.build this st1) = Observe.returned (V1.build this st) ∧
    ∃ msg, V1.addInnerResource this x st1 = JS.Err (JS.TypeError msg) st1.
Proof.
  intros Hb Hrs. pose proof Hb as [Hthis (props & Hc)].
  pose proof (field_get_prop _ _ _ _ Hthis) as Hg.
  set (st1 := JS.set_heap
                (insert c (JS.OObj (<["innerResources"%string := rs]> props))) st).
  assert (Observe.is_builder this c st1) as Hb1 by (by apply is_builder_write).
  pose proof Hb1 as [Hthis1 _].
  assert (JS.heap st1 !! c
          = Some (JS.OObj (<["innerResources"%string := rs]> props))) as Hc1.
  { unfold st1. simpl. by rewrite lookup_insert_eq. }
  exists st1. split; [|split].
  - unfold V1.setInnerResources. unfold JS.bind at 1. rewrite Hg.
    unfold JS.bind at 1. by rewrite (set_prop_plain c props).
  - rewrite (build_cases this c _ st1 Hthis1 Hc1), (build_cases this c _ st Hthis Hc).
    rewrite !lookup_insert_ne by done.
    destruct (negb _); [done|]. by destruct (negb _).
  - assert (JS.bind (JS.get_prop this "config") (fun config =>
              JS.get_prop config "innerResources") st1 = JS.Ok rs st1) as Hinner.
    { unfold JS.bind. rewrite (field_get_prop _ _ _ _ Hthis1).
      rewrite (get_prop_plain c _ _ _ Hc1). by rewrite lookup_insert_eq. }
    unfold JS.bind in Hinner.
    unfold V1.addInnerResource. unfold JS.bind at 1.
    rewrite (field_get_prop _ _ _ _ Hthis1) in *.
    unfold JS.bind at 1. rewrite Hinner. unfold JS.bind at 1.
    destruct Hrs as [-> | [-> | [s ->]]]; eexists; reflexivity.
Qed.

(** The theorem at work: [setInnerResources("wheels")] on the builder of
    [src/unnamed/part_000]. *)
Lemma addInnerResource_needs_an_array_witness :
  ∃ st1,
    V1.setInnerResources Scenario.builder (JS.VStr "wheels") Scenario.builder_store
      = JS.Ok Scenario.builder st1 ∧
    Observe.returned (V1.build Scenario.builder st1)
      = Observe.returned (V1.build Scenario.builder Scenario.builder_store) ∧
    ∃ msg, V1.addInnerResource Scenario.builder (JS.VStr "doors") st1
           = JS.Err (JS.TypeError msg) st1.
Proof.
  apply (addInnerResource_needs_an_array Scenario.builder (JS.VStr "wheels")
           (JS.VStr "doors") 3 Scenario.builder_store).
  - split; [vm_compute; reflexivity|]. eexists. vm_compute. reflexivity.
  - right. right. eexists. reflexivity.
Defined.

(** X18. One builder cannot produce two differently configured classes:
    a class built before any run of later mutations and a class built
    after it observe the same configuration in every store, the one the
    builder holds. *)
Theorem one_builder_one_configuration
    (this b : JS.value) (c : JS.loc) (ms : list V1.mutation)
    (k1 k2 : V1.klass) (st st1 st2 st3 : JS.state) :
  Observe.is_builder this c st →
  V1.build this st = JS.Ok k1 st1 →
  Cases.mutate_all this ms st1 = JS.Ok b st2 →
  V1.build b st2 = JS.Ok k2 st3 →
  b = this ∧
  (∀ s, V1.observed_config k1 s = V1.observed_config k2 s) ∧
  V1.observed_config k1 st3 = V1.builder_config this st3.
Proof.
  intros Hb H1 Hm H2.
  destruct (build_Ok this c st k1 st1 Hb H1) as [-> Hk1].
  destruct (mutate_all_keeps_builder this c ms st b st2 Hb Hm) as [-> Hb2].
  destruct (build_Ok this c st2 k2 st3 Hb2 H2) as [-> Hk2].
  split; [done|]. unfold V1.observed_config. rewrite Hk1, Hk2.
  split; [done|]. symmetry. by apply builder_config_observed.
Qed.

(** The theorem at work: [MyNiceModel], then [setResource("others")] and
    a second [build()]. *)
Lemma one_builder_one_configuration_witness :
  Scenario.builder = Scenario.builder ∧
  (∀ s, V1.observed_config Scenario.MyNiceModel s
        = V1.observed_config Scenario.MyNiceModel s) ∧
  V1.observed_config Scenario.MyNiceModel Scenario.renamed_store
    = V1.builder_config Scenario.builder Scenario.renamed_store.
Proof.
  apply (one_builder_one_configuration Scenario.builder Scenario.builder 3
           [V1.SetResource (JS.VStr "others")]
           Scenario.MyNiceModel Scenario.MyNiceModel
           Scenario.builder_store Scenario.builder_store Scenario.renamed_store
           Scenario.renamed_store).
  - split; [vm_compute; reflexivity|]. eexists. vm_compute. reflexivity.
  - vm_compute. reflexivity.
  - vm_compute. reflexivity.
  - vm_compute. reflexivity.
Defined.

(** X19. A class that [build()] returns can never be instantiated, on any
    host and in any store, also where a global [getAPIHost] exists: the
    class carries [config] as a prototype accessor only, so the static
    lookup [this.constructor.config] of the constructor finds nothing.
    Neither [new], nor [create], nor [list] returns. *)
Theorem built_class_cannot_be_instantiated
    (this arg : JS.value) (k : V1.klass) (st st1 s : JS.state)
    (env : JS.host) (fuel : nat) :
  V1.build this st = JS.Ok k st1 →
  Observe.returned (V1.constructor env fuel k arg s) = None ∧
  Observe.returned (V1.create env fuel k arg s) = None ∧
  Observe.returned (V1.list env fuel k arg s) = None.
Proof.
  intros Hbuild. apply build_static_config in Hbuild as Hk.
  split; [by apply built_class_never_constructs|]. split.
  - unfold V1.create. unfold JS.bind at 1.
    pose proof (built_class_never_constructs env fuel k JS.VUndef s Hk) as H.
    by destruct (V1.constructor env fuel k JS.VUndef s).
  - unfold V1.list. unfold JS.bind at 1.
    destruct (JS.truthy arg).
    + simpl. unfold JS.bind at 1.
      pose proof (built_class_never_constructs env fuel k JS.VUndef s Hk) as H.
      by destruct (V1.constructor env fuel k JS.VUndef s).
    + unfold JS.bind at 1. simpl. unfold JS.bind at 1.
      pose proof (built_class_never_constructs env fuel k JS.VUndef
                    (JS.set_heap (insert (fresh (dom (JS.heap s))) (JS.OObj ∅)) s) Hk) as H.
      by destruct (V1.constructor env fuel k JS.VUndef _).
Qed.

(** The theorem at work: [MyNiceModel] of [src/unnamed/part_000]. *)
Lemma built_class_cannot_be_instantiated_witness :
  Observe.returned
    (V1.constructor Scenario.echo_env 30 Scenario.MyNiceModel (JS.VNum 1)
       Scenario.builder_store) = None ∧
  Observe.returned
    (V1.create Scenario.echo_env 30 Scenario.MyNiceModel (JS.VNum 1)
       Scenario.builder_store) = None ∧
  Observe.returned
    (V1.list Scenario.echo_env 30 Scenario.MyNiceModel (JS.VNum 1)
       Scenario.builder_store) = None.
Proof.
  apply (built_class_cannot_be_instantiated Scenario.builder (JS.VNum 1)
           Scenario.MyNiceModel Scenario.builder_store Scenario.builder_store
           Scenario.builder_store Scenario.echo_env 30).
  vm_compute. reflexivity.
Defined.
